(** * security/lockdown/lockdown.c: the kernel lockdown ratchet

    A shallow embedding of the lockdown LSM: the global
    [kernel_locked_down], the raise operation [lock_kernel_down], the
    early parameter [lockdown_param], the hook [lockdown_is_locked_down],
    the securityfs file ([lockdown_read], [lockdown_write]) and the SysRq
    lift, followed by the properties of the ratchet.

    Conventions.  An [enum lockdown_reason] value is an unsigned integer
    and is modelled by [N]; [int] and [ssize_t] results are [Z] with the
    usual negative errno encoding; a [char] buffer is a [list ascii]
    holding its bytes, and reading past the end of the list yields the
    NUL terminator.  Functions touching the global or the kernel log run
    in the state monad [M]. *)

From Stdlib Require Import ZArith NArith List String Ascii Bool Sorted Lia.
Import ListNotations.

Local Open Scope Z_scope.

(* ------------------------------------------------------------------ *)
(** ** errno *)

(** Modelled from the spec: the errno constants come from
    include/uapi/asm-generic/errno-base.h, which is not among the sources.
    The description only needs the permission error, the invalid-argument
    error and the input error to be distinct negative results; the values
    are the kernel's. *)
Module Errno.
Definition EPERM  : Z := 1.
Definition EFAULT : Z := 14.
Definition EINVAL : Z := 22.
End Errno.
Import Errno.

(* ------------------------------------------------------------------ *)
(** ** C strings *)

Module CStr.

Definition cbuf := list ascii.

Definition NUL : ascii := Ascii.zero.
Definition LF  : ascii := "010"%char.

(** A string literal: its bytes, the terminator being implicit. *)
Definition lit (s : string) : cbuf := list_ascii_of_string s.

(** The bytes of the C string that starts at the head of a buffer. *)
Fixpoint cstr (b : cbuf) : cbuf :=
  match b with
  | [] => []
  | c :: b' => if Ascii.eqb c NUL then [] else c :: cstr b'
  end.

Definition strlen (b : cbuf) : nat := List.length (cstr b).

(** Modelled from the spec: [strcmp] is lib/string.c, not among the
    sources.  It is the exact, case-sensitive comparison of the
    description: 0 when the two strings agree up to and including the
    terminator, else -1 or 1 by the first differing byte taken as an
    [unsigned char]. *)
Fixpoint strcmp (cs ct : cbuf) : Z :=
  let c1 := hd NUL cs in
  let c2 := hd NUL ct in
  if negb (Ascii.eqb c1 c2) then
    if (N_of_ascii c1 <? N_of_ascii c2)%N then -1 else 1
  else if Ascii.eqb c1 NUL then 0
  else match cs with
       | [] => 0
       | _ :: cs' => strcmp cs' (tl ct)
       end.

(** [b[i] = c]; nothing is written outside the buffer. *)
Fixpoint store (b : cbuf) (i : nat) (c : ascii) : cbuf :=
  match b, i with
  | [], _ => []
  | _ :: b', O => c :: b'
  | x :: b', S i' => x :: store b' i' c
  end.

(** No NUL byte: the buffer is text. *)
Definition is_text (b : cbuf) : bool :=
  forallb (fun c => negb (Ascii.eqb c NUL)) b.

End CStr.
Import CStr.

(* ------------------------------------------------------------------ *)
(** ** enum lockdown_reason and the label table *)

(** Modelled from the spec: [enum lockdown_reason] is declared in
    include/linux/security.h, which is not among the sources.  The
    enumerators are numbered from 0 in the order in which the designated
    initialisers of [lockdown_reasons] list them, which gives the order
    None < IntegrityMax < ConfidentialityMax of the data model, with the
    topmost sentinel LOCKDOWN_CONFIDENTIALITY_MAX last. *)
Module Reason.
Definition LOCKDOWN_NONE               : N := 0.
Definition LOCKDOWN_MODULE_SIGNATURE   : N := 1.
Definition LOCKDOWN_DEV_MEM            : N := 2.
Definition LOCKDOWN_EFI_TEST           : N := 3.
Definition LOCKDOWN_KEXEC              : N := 4.
Definition LOCKDOWN_HIBERNATION        : N := 5.
Definition LOCKDOWN_PCI_ACCESS         : N := 6.
Definition LOCKDOWN_IOPORT             : N := 7.
Definition LOCKDOWN_MSR                : N := 8.
Definition LOCKDOWN_ACPI_TABLES        : N := 9.
Definition LOCKDOWN_PCMCIA_CIS         : N := 10.
Definition LOCKDOWN_TIOCSSERIAL        : N := 11.
Definition LOCKDOWN_MODULE_PARAMETERS  : N := 12.
Definition LOCKDOWN_MMIOTRACE          : N := 13.
Definition LOCKDOWN_DEBUGFS            : N := 14.
Definition LOCKDOWN_INTEGRITY_MAX      : N := 15.
Definition LOCKDOWN_KCORE              : N := 16.
Definition LOCKDOWN_KPROBES            : N := 17.
Definition LOCKDOWN_BPF_READ           : N := 18.
Definition LOCKDOWN_PERF               : N := 19.
Definition LOCKDOWN_TRACEFS            : N := 20.
Definition LOCKDOWN_CONFIDENTIALITY_MAX : N := 21.
End Reason.
Import Reason.

(** The designated initialisers of [lockdown_reasons]. *)
Definition lockdown_reasons_init : list (N * string) :=
  [ (LOCKDOWN_NONE, "none");
    (LOCKDOWN_MODULE_SIGNATURE, "unsigned module loading");
    (LOCKDOWN_DEV_MEM, "/dev/mem,kmem,port");
    (LOCKDOWN_EFI_TEST, "/dev/efi_test access");
    (LOCKDOWN_KEXEC, "kexec of unsigned images");
    (LOCKDOWN_HIBERNATION, "hibernation");
    (LOCKDOWN_PCI_ACCESS, "direct PCI access");
    (LOCKDOWN_IOPORT, "raw io port access");
    (LOCKDOWN_MSR, "raw MSR access");
    (LOCKDOWN_ACPI_TABLES, "modifying ACPI tables");
    (LOCKDOWN_PCMCIA_CIS, "direct PCMCIA CIS storage");
    (LOCKDOWN_TIOCSSERIAL, "reconfiguration of serial port IO");
    (LOCKDOWN_MODULE_PARAMETERS, "unsafe module parameters");
    (LOCKDOWN_MMIOTRACE, "unsafe mmio");
    (LOCKDOWN_DEBUGFS, "debugfs access");
    (LOCKDOWN_INTEGRITY_MAX, "integrity");
    (LOCKDOWN_KCORE, "/proc/kcore access");
    (LOCKDOWN_KPROBES, "use of kprobes");
    (LOCKDOWN_BPF_READ, "use of bpf to read kernel RAM");
    (LOCKDOWN_PERF, "unsafe use of perf");
    (LOCKDOWN_TRACEFS, "use of tracefs");
    (LOCKDOWN_CONFIDENTIALITY_MAX, "confidentiality") ]%string.

(** [lockdown_reasons[what]]: [None] is the NULL pointer of a slot that no
    initialiser names (and stands for any index past the array). *)
Definition lockdown_reasons (what : N) : option string :=
  option_map snd (find (fun e => N.eqb (fst e) what) lockdown_reasons_init).

Definition lockdown_levels : list N :=
  [LOCKDOWN_NONE; LOCKDOWN_INTEGRITY_MAX; LOCKDOWN_CONFIDENTIALITY_MAX].

(* ------------------------------------------------------------------ *)
(** ** Kernel state and the state monad *)

(** Lines sent to the kernel log. *)
Inductive notice : Type :=
| NoticeLockedDown (where_ : string)         (* "Kernel is locked down from %s; ..." *)
| NoticeRestricted (comm label : string)     (* "Lockdown: %s: %s is restricted; ..." *)
| WarnInvalidReason                          (* WARN(..., "Invalid lockdown reason") *)
| NoticeLifting.                             (* "Lifting lockdown" *)

Record kernel : Type := mkKernel {
  kernel_locked_down : N;      (* the ratchet *)
  current_comm : string;       (* current->comm *)
  klog : list notice           (* the kernel log, oldest line first *)
}.

Definition M (A : Type) : Type := kernel -> A * kernel.

Definition ret {A} (a : A) : M A := fun k => (a, k).

Definition bind {A B} (m : M A) (f : A -> M B) : M B :=
  fun k => let (a, k') := m k in f a k'.

Notation "x <- m ;; f" := (bind m (fun x => f))
  (at level 61, m at next level, right associativity).
Notation "m ;;; f" := (bind m (fun _ => f))
  (at level 61, right associativity).

Definition get_locked_down : M N := fun k => (kernel_locked_down k, k).

Definition set_locked_down (level : N) : M unit :=
  fun k => (tt, mkKernel level (current_comm k) (klog k)).

Definition get_comm : M string := fun k => (current_comm k, k).

(** Modelled from the spec: [pr_notice] is a macro of include/linux/printk.h,
    not among the sources; it emits one line to the diagnostic log. *)
Definition pr_notice (n : notice) : M unit :=
  fun k => (tt, mkKernel (kernel_locked_down k) (current_comm k) (klog k ++ [n])).

(** Modelled from the spec: [WARN] is a macro of include/asm-generic/bug.h,
    not among the sources.  It is the defensive assertion of the
    description: it flags the call in the log when the condition holds and
    evaluates to the condition. *)
Definition WARN (cond : bool) (n : notice) : M bool :=
  if cond then pr_notice n ;;; ret true else ret false.

(** The value of the global at process start. *)
Definition boot (comm : string) : kernel := mkKernel LOCKDOWN_NONE comm [].

(* ------------------------------------------------------------------ *)
(** ** lock_kernel_down *)

Definition lock_kernel_down (where_ : string) (level : N) : M Z :=
  cur <- get_locked_down ;;
  if (level <=? cur)%N then ret (- EPERM)
  else
    set_locked_down level ;;;
    pr_notice (NoticeLockedDown where_) ;;;
    ret 0.

(** A run of raise requests; the result lists the level observed after
    each request. *)
Fixpoint raise_all (reqs : list (string * N)) (k : kernel) : list N :=
  match reqs with
  | [] => []
  | (where_, level) :: reqs' =>
      let k' := snd (lock_kernel_down where_ level k) in
      kernel_locked_down k' :: raise_all reqs' k'
  end.

(* ------------------------------------------------------------------ *)
(** ** lockdown_param *)

(** The argument is a [char *]: [None] is the NULL pointer. *)
Definition lockdown_param (level : option cbuf) : M Z :=
  match level with
  | None => ret (- EINVAL)
  | Some level =>
      if strcmp level (lit "integrity") =? 0 then
        lock_kernel_down "command line" LOCKDOWN_INTEGRITY_MAX ;;;
        ret 0
      else if strcmp level (lit "confidentiality") =? 0 then
        lock_kernel_down "command line" LOCKDOWN_CONFIDENTIALITY_MAX ;;;
        ret 0
      else ret (- EINVAL)
  end.

(* ------------------------------------------------------------------ *)
(** ** lockdown_is_locked_down *)

Definition lockdown_is_locked_down (what : N) : M Z :=
  invalid <- WARN (LOCKDOWN_CONFIDENTIALITY_MAX <=? what)%N WarnInvalidReason ;;
  if invalid then ret (- EPERM)
  else
    cur <- get_locked_down ;;
    if (what <=? cur)%N then
      match lockdown_reasons what with
      | Some label =>
          comm <- get_comm ;;
          pr_notice (NoticeRestricted comm label)
      | None => ret tt
      end ;;;
      ret (- EPERM)
    else ret 0.

(* ------------------------------------------------------------------ *)
(** ** lockdown_lsm_init *)

(** The build configuration: which of the two FORCE options is set, and
    whether the SysRq lift is compiled in. *)
Inductive force_config : Type :=
| FORCE_NONE
| FORCE_INTEGRITY         (* CONFIG_LOCK_DOWN_KERNEL_FORCE_INTEGRITY *)
| FORCE_CONFIDENTIALITY.  (* CONFIG_LOCK_DOWN_KERNEL_FORCE_CONFIDENTIALITY *)

Record config : Type := mkConfig {
  CONFIG_LOCK_DOWN_KERNEL_FORCE : force_config;
  CONFIG_ALLOW_LOCKDOWN_LIFT_BY_SYSRQ : bool
}.

(** [security_add_hooks] installs [lockdown_is_locked_down] as the
    locked_down hook; it does not touch the state modelled here. *)
Definition lockdown_lsm_init (cfg : config) : M Z :=
  match CONFIG_LOCK_DOWN_KERNEL_FORCE cfg with
  | FORCE_INTEGRITY =>
      lock_kernel_down "Kernel configuration" LOCKDOWN_INTEGRITY_MAX ;;; ret tt
  | FORCE_CONFIDENTIALITY =>
      lock_kernel_down "Kernel configuration" LOCKDOWN_CONFIDENTIALITY_MAX ;;; ret tt
  | FORCE_NONE => ret tt
  end ;;;
  ret 0.

(* ------------------------------------------------------------------ *)
(** ** lockdown_read *)

(** One turn of the loop: [temp] holds the [offset] bytes written so far,
    and [sprintf] appends to them. *)
Definition lockdown_read_step (cur : N) (temp : cbuf) (level : N) : cbuf :=
  match lockdown_reasons level with
  | Some label =>
      if (cur =? level)%N
      then temp ++ lit "[" ++ lit label ++ lit "] "
      else temp ++ lit label ++ lit " "
  | None => temp
  end.

(** The result is the text of [temp], which [simple_read_from_buffer]
    then serves to the reader from [*ppos] on. *)
Definition lockdown_read : M cbuf :=
  cur <- get_locked_down ;;
  let temp := fold_left (lockdown_read_step cur) lockdown_levels [] in
  let offset := List.length temp in
  let temp := if (0 <? offset)%nat then store temp (offset - 1) LF else temp in
  ret temp.

(* ------------------------------------------------------------------ *)
(** ** lockdown_write *)

(** Modelled from the spec: [memdup_user_nul] is mm/util.c, not among the
    sources.  It yields a copy of the [n] bytes at [buf] followed by a
    NUL.  [buf] is the readable extent of the user mapping; a payload that
    cannot be read in full is the input error of the description.
    Allocation failure is left out. *)
Definition memdup_user_nul (buf : cbuf) (n : nat) : Z + cbuf :=
  if (n <=? List.length buf)%nat then inr (firstn n buf ++ [NUL])
  else inl (- EFAULT).

(** One turn of the matching loop. *)
Definition lockdown_write_step (state : cbuf) (err : Z) (level : N) : M Z :=
  match lockdown_reasons level with
  | Some label =>
      if strcmp state (lit label) =? 0
      then lock_kernel_down "securityfs" level
      else ret err
  | None => ret err
  end.

Fixpoint lockdown_write_loop (state : cbuf) (err : Z) (levels : list N) : M Z :=
  match levels with
  | [] => ret err
  | level :: levels' =>
      err' <- lockdown_write_step state err level ;;
      lockdown_write_loop state err' levels'
  end.

Definition lockdown_write (buf : cbuf) (n : nat) : M Z :=
  match memdup_user_nul buf n with
  | inl e => ret e
  | inr state =>
      let len := strlen state in
      let state :=
        if (0 <? len)%nat && Ascii.eqb (nth (len - 1) state NUL) LF
        then store state (len - 1) NUL
        else state in
      err <- lockdown_write_loop state (- EINVAL) lockdown_levels ;;
      ret (if err =? 0 then Z.of_nat n else err)
  end.

(* ------------------------------------------------------------------ *)
(** ** The SysRq lift (CONFIG_ALLOW_LOCKDOWN_LIFT_BY_SYSRQ) *)

Definition lift_kernel_lockdown : M unit :=
  pr_notice NoticeLifting ;;;
  set_locked_down LOCKDOWN_NONE.

Definition sysrq_handle_lockdown_lift (key : Z) : M unit :=
  cur <- get_locked_down ;;
  if negb (cur =? LOCKDOWN_NONE)%N then lift_kernel_lockdown else ret tt.

(* ------------------------------------------------------------------ *)
(** ** Reachable states *)

(** The entry points through which the rest of the kernel and user space
    drive the ratchet. *)
Inductive op : Type :=
| OpLsmInit                                  (* lockdown_lsm_init *)
| OpParam (level : option cbuf)              (* lockdown= on the command line *)
| OpRaise (where_ : string) (level : N)      (* lock_kernel_down *)
| OpCheck (what : N)                         (* the locked_down hook *)
| OpRead                                     (* read of securityfs lockdown *)
| OpWrite (buf : cbuf) (n : nat)             (* write to securityfs lockdown *)
| OpLift (key : Z)                           (* the SysRq key *)
| OpExec (comm : string).                    (* another task becomes current *)

Definition set_comm (comm : string) : M unit :=
  fun k => (tt, mkKernel (kernel_locked_down k) comm (klog k)).

Definition run (cfg : config) (o : op) (k : kernel) : kernel :=
  match o with
  | OpLsmInit => snd (lockdown_lsm_init cfg k)
  | OpParam level => snd (lockdown_param level k)
  | OpRaise where_ level => snd (lock_kernel_down where_ level k)
  | OpCheck what => snd (lockdown_is_locked_down what k)
  | OpRead => snd (lockdown_read k)
  | OpWrite buf n => snd (lockdown_write buf n k)
  | OpLift key => snd (sysrq_handle_lockdown_lift key k)
  | OpExec comm => snd (set_comm comm k)
  end.

(** A direct raise asks for one of the levels of [lockdown_levels], and
    the SysRq key exists only in a build that has it. *)
Definition op_allowed (cfg : config) (o : op) : bool :=
  match o with
  | OpRaise _ level => existsb (N.eqb level) lockdown_levels
  | OpLift _ => CONFIG_ALLOW_LOCKDOWN_LIFT_BY_SYSRQ cfg
  | _ => true
  end.

Inductive reachable (cfg : config) : kernel -> Prop :=
| reachable_boot (comm : string) : reachable cfg (boot comm)
| reachable_step (k : kernel) (o : op) :
    reachable cfg k -> op_allowed cfg o = true -> reachable cfg (run cfg o k).

(* ------------------------------------------------------------------ *)
(** ** Reading the securityfs line back *)

Definition SP : ascii := " "%char.

(** The fields of a line, cut at each space. *)
Fixpoint tokens_aux (cur : cbuf) (line : cbuf) : list cbuf :=
  match line with
  | [] => [rev cur]
  | c :: line' =>
      if Ascii.eqb c SP then rev cur :: tokens_aux [] line'
      else tokens_aux (c :: cur) line'
  end.

Definition tokens (line : cbuf) : list cbuf := tokens_aux [] line.

(** A token of the form [[...]]. *)
Definition bracketed (t : cbuf) : bool :=
  match t with
  | c :: t' => Ascii.eqb c "["%char && Ascii.eqb (last t' NUL) "]"%char
  | [] => false
  end.

(** The token without its brackets. *)
Definition unbracket (t : cbuf) : cbuf :=
  if bracketed t then removelast (tl t) else t.

(** The label of a level, as bytes; empty for a level without one. *)
Definition level_name (level : N) : cbuf :=
  match lockdown_reasons level with
  | Some label => lit label
  | None => []
  end.

(** Dropping one trailing newline, as the description of the write
    operation words it. *)
Definition strip_newline (payload : cbuf) : cbuf :=
  if Ascii.eqb (last payload NUL) LF then removelast payload else payload.

(* ------------------------------------------------------------------ *)
(** ** Auxiliary definitions for the statements *)

(** The state after a check that found the operation restricted. *)
Definition restricted_log (what : N) (k : kernel) : kernel :=
  match lockdown_reasons what with
  | Some label =>
      mkKernel (kernel_locked_down k) (current_comm k)
               (klog k ++ [NoticeRestricted (current_comm k) label])
  | None => k
  end.

(** The level a name selects: the search of the description, by exact
    comparison with each label in turn. *)
Definition name_level (name : cbuf) : option N :=
  find (fun level =>
          match lockdown_reasons level with
          | Some label => if list_eq_dec ascii_dec name (lit label) then true else false
          | None => false
          end) lockdown_levels.

(* Particular states. *)

(** A kernel locked down to the confidentiality level. *)
Definition locked_confidentiality : kernel :=
  snd (lock_kernel_down "securityfs" LOCKDOWN_CONFIDENTIALITY_MAX (boot "init")).

(** The state in which the command line is parsed when the build forces
    the confidentiality level. *)
Definition forced_confidentiality : kernel :=
  snd (lockdown_lsm_init (mkConfig FORCE_CONFIDENTIALITY false) (boot "swapper")).

(** A kernel raised to the integrity level through securityfs. *)
Definition written_integrity : kernel :=
  run (mkConfig FORCE_NONE false) (OpWrite (lit "integrity" ++ [LF]) 10) (boot "sh").

(* ------------------------------------------------------------------ *)
(** ** lockdown_lift_sysrq (CONFIG_ALLOW_LOCKDOWN_LIFT_BY_SYSRQ) *)

(** Modelled from the spec: [struct sysrq_key_op] and
    SYSRQ_DISABLE_USERSPACE are declared in include/linux/sysrq.h, which is
    not among the sources; the fields are the four that the initialiser of
    [lockdown_lift_sysrq_op] names. *)
Inductive sysrq_mask : Type :=
| SYSRQ_DISABLE_USERSPACE.

Record sysrq_key_op : Type := mkSysrqKeyOp {
  handler : Z -> M unit;
  help_msg : cbuf;
  action_msg : string;
  enable_mask : sysrq_mask
}.

Definition lockdown_lift_sysrq_op : sysrq_key_op :=
  mkSysrqKeyOp sysrq_handle_lockdown_lift
               (lit "unSB(x)")
               "Disabling Secure Boot restrictions"
               SYSRQ_DISABLE_USERSPACE.

(** The static [lockdown_lift_sysrq_op], whose help text the initcall
    patches, and the calls made to [register_sysrq_key], oldest first. *)
Record sysrq : Type := mkSysrq {
  lift_sysrq_op : sysrq_key_op;
  sysrq_registered : list (ascii * sysrq_key_op)
}.

Definition sysrq_init : sysrq := mkSysrq lockdown_lift_sysrq_op [].

(** LOCKDOWN_LIFT_KEY comes from asm/setup.h and is taken as a parameter.
    The result of [register_sysrq_key] is not looked at. *)
Definition lockdown_lift_sysrq (LOCKDOWN_LIFT_KEY : ascii) (k : kernel) (s : sysrq)
  : Z * sysrq :=
  if negb (kernel_locked_down k =? LOCKDOWN_NONE)%N then
    let op' :=
      mkSysrqKeyOp (handler (lift_sysrq_op s))
                   (store (help_msg (lift_sysrq_op s)) 5 LOCKDOWN_LIFT_KEY)
                   (action_msg (lift_sysrq_op s))
                   (enable_mask (lift_sysrq_op s)) in
    (0, mkSysrq op' (sysrq_registered s ++ [(LOCKDOWN_LIFT_KEY, op')]))
  else (0, s).

(* ------------------------------------------------------------------ *)
(** ** Runs of operations *)

Definition run_all (cfg : config) (ops : list op) (k : kernel) : kernel :=
  fold_left (fun k o => run cfg o k) ops k.

Definition is_lift (o : op) : bool :=
  match o with
  | OpLift _ => true
  | _ => false
  end.

(** [char temp[80]] of [lockdown_read]. *)
Definition lockdown_read_temp_size : nat := 80.

(** The level a build forces, LOCKDOWN_NONE when it forces none. *)
Definition forced_level (cfg : config) : N :=
  match CONFIG_LOCK_DOWN_KERNEL_FORCE cfg with
  | FORCE_NONE => LOCKDOWN_NONE
  | FORCE_INTEGRITY => LOCKDOWN_INTEGRITY_MAX
  | FORCE_CONFIDENTIALITY => LOCKDOWN_CONFIDENTIALITY_MAX
  end.

(** The level a command-line argument asks for, LOCKDOWN_NONE when it is
    NULL or not one of the two tokens. *)
Definition param_level (level : option cbuf) : N :=
  match level with
  | None => LOCKDOWN_NONE
  | Some tok =>
      if list_eq_dec ascii_dec (cstr tok) (lit "integrity")
      then LOCKDOWN_INTEGRITY_MAX
      else if list_eq_dec ascii_dec (cstr tok) (lit "confidentiality")
      then LOCKDOWN_CONFIDENTIALITY_MAX
      else LOCKDOWN_NONE
  end.

(* ================================================================== *)
(** * Properties *)

(* ------------------------------------------------------------------ *)
(** ** C strings *)

Lemma strcmp_0_iff (cs : cbuf) :
  forall ct, strcmp cs ct = 0 <-> cstr cs = cstr ct.
Proof.
  induction cs as [|a cs IH]; intros [|b ct]; cbn [strcmp cstr hd tl].
  - rewrite Ascii.eqb_refl. cbn. tauto.
  - destruct (Ascii.eqb_spec NUL b) as [<-|Hb]; cbn [negb].
    + rewrite Ascii.eqb_refl. tauto.
    + destruct (Ascii.eqb_spec b NUL) as [->|_]; [congruence|].
      split; [destruct (_ <? _)%N|]; discriminate.
  - destruct (Ascii.eqb_spec a NUL) as [->|Ha]; cbn [negb]; [tauto|].
    split; [destruct (_ <? _)%N|]; discriminate.
  - destruct (Ascii.eqb_spec a b) as [<-|Hab]; cbn [negb].
    + destruct (Ascii.eqb_spec a NUL) as [->|Ha]; [tauto|].
      rewrite IH. split; [intros ->; reflexivity | congruence].
    + split; [destruct (_ <? _)%N; discriminate|].
      destruct (Ascii.eqb_spec a NUL) as [->|Ha];
        destruct (Ascii.eqb_spec b NUL) as [->|Hb]; congruence.
Qed.

Lemma strcmp_eqb (cs ct : cbuf) :
  (strcmp cs ct =? 0) = if list_eq_dec ascii_dec (cstr cs) (cstr ct) then true else false.
Proof.
  destruct (list_eq_dec ascii_dec (cstr cs) (cstr ct)) as [E|E].
  - apply Z.eqb_eq, strcmp_0_iff, E.
  - apply Z.eqb_neq. intros H. apply E, strcmp_0_iff, H.
Qed.

Lemma cstr_idem (b : cbuf) : cstr (cstr b) = cstr b.
Proof.
  induction b as [|c b IH]; [reflexivity|].
  cbn [cstr]. destruct (Ascii.eqb c NUL) eqn:Hc; [reflexivity|].
  cbn [cstr]. now rewrite Hc, IH.
Qed.

Lemma cstr_text (b : cbuf) : is_text b = true -> cstr b = b.
Proof.
  induction b as [|c b IH]; [reflexivity|].
  cbn [is_text forallb cstr]. intros [Hc Hb]%andb_prop.
  apply negb_true_iff in Hc. rewrite Hc. f_equal. exact (IH Hb).
Qed.

Lemma cstr_text_nul (b rest : cbuf) :
  is_text b = true -> cstr (b ++ NUL :: rest) = b.
Proof.
  induction b as [|c b IH]; [reflexivity|].
  cbn [is_text forallb cstr app]. intros [Hc Hb]%andb_prop.
  apply negb_true_iff in Hc. rewrite Hc. f_equal. exact (IH Hb).
Qed.

Lemma is_text_removelast (b : cbuf) :
  is_text b = true -> is_text (removelast b) = true.
Proof.
  unfold is_text. induction b as [|c b IH]; [reflexivity|].
  cbn [forallb]. intros [Hc Hb]%andb_prop.
  destruct b as [|d b]; [reflexivity|].
  change (removelast (c :: d :: b)) with (c :: removelast (d :: b)).
  cbn [forallb]. rewrite Hc. exact (IH Hb).
Qed.

Lemma nth_last_app (b : cbuf) (x : ascii) :
  b <> [] -> nth (List.length b - 1) (b ++ [x]) NUL = last b NUL.
Proof.
  induction b as [|c b IH]; [congruence|]. intros _.
  destruct b as [|d b]; [reflexivity|].
  change (last (c :: d :: b) NUL) with (last (d :: b) NUL).
  rewrite <- IH by discriminate. cbn [List.length app].
  replace (S (S (List.length b)) - 1)%nat with (S (S (List.length b) - 1)) by lia.
  reflexivity.
Qed.

Lemma store_last_app (b : cbuf) (x y : ascii) :
  b <> [] -> store (b ++ [x]) (List.length b - 1) y = removelast b ++ [y; x].
Proof.
  induction b as [|c b IH]; [congruence|]. intros _.
  destruct b as [|d b]; [reflexivity|].
  change (removelast (c :: d :: b)) with (c :: removelast (d :: b)).
  cbn [List.length app].
  replace (S (S (List.length b)) - 1)%nat with (S (S (List.length b) - 1)) by lia.
  cbn [store]. f_equal. apply IH. discriminate.
Qed.

(* ------------------------------------------------------------------ *)
(** ** The raise operation *)

Lemma lock_kernel_down_raise (where_ : string) (L : N) (k : kernel) :
  (kernel_locked_down k < L)%N ->
  lock_kernel_down where_ L k =
  (0, mkKernel L (current_comm k) (klog k ++ [NoticeLockedDown where_])).
Proof.
  intros H. unfold lock_kernel_down, bind, get_locked_down.
  apply N.leb_gt in H. rewrite H. reflexivity.
Qed.

Lemma lock_kernel_down_refuse (where_ : string) (L : N) (k : kernel) :
  (L <= kernel_locked_down k)%N ->
  lock_kernel_down where_ L k = (- EPERM, k).
Proof.
  intros H. unfold lock_kernel_down, bind, get_locked_down.
  apply N.leb_le in H. rewrite H. reflexivity.
Qed.

Lemma lock_kernel_down_cases (where_ : string) (L : N) (k : kernel) :
  ((kernel_locked_down k < L)%N /\
   lock_kernel_down where_ L k =
   (0, mkKernel L (current_comm k) (klog k ++ [NoticeLockedDown where_]))) \/
  ((L <= kernel_locked_down k)%N /\ lock_kernel_down where_ L k = (- EPERM, k)).
Proof.
  destruct (N.lt_ge_cases (kernel_locked_down k) L) as [H|H].
  - left. split; [exact H | now apply lock_kernel_down_raise].
  - right. split; [exact H | now apply lock_kernel_down_refuse].
Qed.

Lemma lock_kernel_down_mono (where_ : string) (L : N) (k : kernel) :
  (kernel_locked_down k <= kernel_locked_down (snd (lock_kernel_down where_ L k)))%N.
Proof.
  destruct (lock_kernel_down_cases where_ L k) as [[H ->]|[H ->]]; cbn; lia.
Qed.

Lemma raise_all_sorted (reqs : list (string * N)) :
  forall k, Sorted N.le (kernel_locked_down k :: raise_all reqs k).
Proof.
  induction reqs as [|[where_ L] reqs IH]; intros k; cbn [raise_all].
  - repeat constructor.
  - constructor; [apply IH|]. constructor. apply lock_kernel_down_mono.
Qed.

(** C1.  A raise from current level C to level L returns 0 exactly when
    C < L, and then the current level is L; when C >= L it returns -EPERM
    and the state is the one before the call.  Along any run of raise
    requests the levels observed after each request never decrease. *)
Theorem lock_kernel_down_ratchet :
  forall (where_ : string) (L : N) (k : kernel),
    (fst (lock_kernel_down where_ L k) = 0 <-> (kernel_locked_down k < L)%N) /\
    ((kernel_locked_down k < L)%N ->
       fst (lock_kernel_down where_ L k) = 0 /\
       kernel_locked_down (snd (lock_kernel_down where_ L k)) = L) /\
    ((L <= kernel_locked_down k)%N ->
       lock_kernel_down where_ L k = (- EPERM, k)) /\
    (forall reqs : list (string * N),
       Sorted N.le (kernel_locked_down k :: raise_all reqs k)).
Proof.
  intros where_ L k. repeat split.
  - destruct (lock_kernel_down_cases where_ L k) as [[H _]|[H ->]];
      [intros _; exact H | cbn; discriminate].
  - intros H. now rewrite lock_kernel_down_raise.
  - now rewrite lock_kernel_down_raise.
  - now rewrite lock_kernel_down_raise.
  - apply lock_kernel_down_refuse.
  - intros reqs. apply raise_all_sorted.
Qed.

Lemma lock_kernel_down_ratchet_witness :
  (kernel_locked_down (boot "init") < LOCKDOWN_INTEGRITY_MAX)%N /\
  (fst (lock_kernel_down "securityfs" LOCKDOWN_INTEGRITY_MAX (boot "init")) = 0 /\
   kernel_locked_down
     (snd (lock_kernel_down "securityfs" LOCKDOWN_INTEGRITY_MAX (boot "init")))
   = LOCKDOWN_INTEGRITY_MAX) /\
  (LOCKDOWN_NONE <= kernel_locked_down (boot "init"))%N /\
  lock_kernel_down "securityfs" LOCKDOWN_NONE (boot "init") = (- EPERM, boot "init").
Proof.
  pose proof (lock_kernel_down_ratchet
                "securityfs" LOCKDOWN_INTEGRITY_MAX (boot "init")) as [_ [Hup _]].
  pose proof (lock_kernel_down_ratchet
                "securityfs" LOCKDOWN_NONE (boot "init")) as [_ [_ [Hdown _]]].
  split; [reflexivity|]. split; [apply Hup; reflexivity|].
  split; [discriminate|]. apply Hdown. discriminate.
Defined.

(* ------------------------------------------------------------------ *)
(** ** The authorization check *)

Lemma restricted_log_level (what : N) (k : kernel) :
  kernel_locked_down (restricted_log what k) = kernel_locked_down k.
Proof. unfold restricted_log. now destruct (lockdown_reasons what). Qed.

Lemma lockdown_is_locked_down_valid (what : N) (k : kernel) :
  (what < LOCKDOWN_CONFIDENTIALITY_MAX)%N ->
  lockdown_is_locked_down what k =
  if (what <=? kernel_locked_down k)%N
  then (- EPERM, restricted_log what k)
  else (0, k).
Proof.
  intros H. apply N.leb_gt in H.
  unfold lockdown_is_locked_down, WARN. rewrite H.
  unfold bind, ret, get_locked_down, restricted_log.
  destruct (what <=? kernel_locked_down k)%N; [|reflexivity].
  now destruct (lockdown_reasons what).
Qed.

Lemma lockdown_is_locked_down_sentinel (what : N) (k : kernel) :
  (LOCKDOWN_CONFIDENTIALITY_MAX <= what)%N ->
  lockdown_is_locked_down what k =
  (- EPERM,
   mkKernel (kernel_locked_down k) (current_comm k) (klog k ++ [WarnInvalidReason])).
Proof.
  intros H. apply N.leb_le in H.
  unfold lockdown_is_locked_down, WARN. now rewrite H.
Qed.

Lemma lockdown_is_locked_down_level (what : N) (k : kernel) :
  kernel_locked_down (snd (lockdown_is_locked_down what k)) = kernel_locked_down k.
Proof.
  destruct (N.lt_ge_cases what LOCKDOWN_CONFIDENTIALITY_MAX) as [H|H].
  - rewrite lockdown_is_locked_down_valid by exact H.
    destruct (what <=? kernel_locked_down k)%N; cbn [snd];
      [apply restricted_log_level | reflexivity].
  - now rewrite lockdown_is_locked_down_sentinel.
Qed.

(** C2.  For a reason whose ordinal K is strictly below
    LOCKDOWN_CONFIDENTIALITY_MAX, the check returns -EPERM exactly when
    the current level is at least K and returns 0 exactly when it is
    below K; the current level is the same after the check. *)
Theorem lockdown_is_locked_down_correct :
  forall (K : N) (k : kernel),
    (K < LOCKDOWN_CONFIDENTIALITY_MAX)%N ->
    (fst (lockdown_is_locked_down K k) = - EPERM <-> (K <= kernel_locked_down k)%N) /\
    (fst (lockdown_is_locked_down K k) = 0 <-> (kernel_locked_down k < K)%N) /\
    kernel_locked_down (snd (lockdown_is_locked_down K k)) = kernel_locked_down k.
Proof.
  intros K k HK. split; [|split]; [| |apply lockdown_is_locked_down_level].
  - rewrite lockdown_is_locked_down_valid by exact HK.
    destruct (N.leb_spec K (kernel_locked_down k)) as [H|H]; cbn [fst].
    + tauto.
    + split; [discriminate | lia].
  - rewrite lockdown_is_locked_down_valid by exact HK.
    destruct (N.leb_spec K (kernel_locked_down k)) as [H|H]; cbn [fst].
    + split; [discriminate | lia].
    + tauto.
Qed.

Lemma lockdown_is_locked_down_correct_witness :
  (LOCKDOWN_KEXEC < LOCKDOWN_CONFIDENTIALITY_MAX)%N /\
  ((fst (lockdown_is_locked_down LOCKDOWN_KEXEC (boot "kexec")) = - EPERM <->
    (LOCKDOWN_KEXEC <= kernel_locked_down (boot "kexec"))%N) /\
   (fst (lockdown_is_locked_down LOCKDOWN_KEXEC (boot "kexec")) = 0 <->
    (kernel_locked_down (boot "kexec") < LOCKDOWN_KEXEC)%N) /\
   kernel_locked_down (snd (lockdown_is_locked_down LOCKDOWN_KEXEC (boot "kexec")))
   = kernel_locked_down (boot "kexec")).
Proof.
  split; [reflexivity|].
  apply (lockdown_is_locked_down_correct LOCKDOWN_KEXEC (boot "kexec")).
  reflexivity.
Defined.

(** C3.  For a reason at or beyond LOCKDOWN_CONFIDENTIALITY_MAX the check
    logs the "Invalid lockdown reason" warning and returns -EPERM whatever
    the current level is; the current level is the same after the check. *)
Theorem lockdown_is_locked_down_fails_closed :
  forall (what : N) (k : kernel),
    (LOCKDOWN_CONFIDENTIALITY_MAX <= what)%N ->
    fst (lockdown_is_locked_down what k) = - EPERM /\
    klog (snd (lockdown_is_locked_down what k)) = klog k ++ [WarnInvalidReason] /\
    kernel_locked_down (snd (lockdown_is_locked_down what k)) = kernel_locked_down k.
Proof.
  intros what k H. rewrite lockdown_is_locked_down_sentinel by exact H.
  repeat split.
Qed.

Lemma lockdown_is_locked_down_fails_closed_witness :
  (LOCKDOWN_CONFIDENTIALITY_MAX <= LOCKDOWN_CONFIDENTIALITY_MAX)%N /\
  (fst (lockdown_is_locked_down LOCKDOWN_CONFIDENTIALITY_MAX (boot "init")) = - EPERM /\
   klog (snd (lockdown_is_locked_down LOCKDOWN_CONFIDENTIALITY_MAX (boot "init")))
   = klog (boot "init") ++ [WarnInvalidReason] /\
   kernel_locked_down
     (snd (lockdown_is_locked_down LOCKDOWN_CONFIDENTIALITY_MAX (boot "init")))
   = kernel_locked_down (boot "init")).
Proof.
  split; [discriminate|].
  apply (lockdown_is_locked_down_fails_closed LOCKDOWN_CONFIDENTIALITY_MAX (boot "init")).
  discriminate.
Defined.

(* ------------------------------------------------------------------ *)
(** ** The SysRq lift *)

Lemma sysrq_handle_lockdown_lift_level (key : Z) (k : kernel) :
  kernel_locked_down (snd (sysrq_handle_lockdown_lift key k)) = LOCKDOWN_NONE.
Proof.
  unfold sysrq_handle_lockdown_lift, bind, get_locked_down.
  destruct (N.eqb_spec (kernel_locked_down k) LOCKDOWN_NONE) as [E|E];
    cbn [negb]; [exact E | reflexivity].
Qed.

(** C7, as stated, fails: after the lift from the confidentiality level
    the level is LOCKDOWN_NONE, and the check for the reason LOCKDOWN_NONE
    (ordinal 0, below the sentinel) still returns -EPERM, as does the check
    for the sentinel itself. *)
Lemma lift_then_check_none_restricted :
  kernel_locked_down (snd (sysrq_handle_lockdown_lift 120 locked_confidentiality))
  = LOCKDOWN_NONE /\
  fst (lockdown_is_locked_down LOCKDOWN_NONE
         (snd (sysrq_handle_lockdown_lift 120 locked_confidentiality))) = - EPERM /\
  fst (lockdown_is_locked_down LOCKDOWN_NONE
         (snd (sysrq_handle_lockdown_lift 120 locked_confidentiality))) <> 0 /\
  fst (lockdown_is_locked_down LOCKDOWN_CONFIDENTIALITY_MAX
         (snd (sysrq_handle_lockdown_lift 120 locked_confidentiality))) = - EPERM.
Proof. repeat split. discriminate. Qed.

(** C7, amended.  The SysRq handler leaves the current level at
    LOCKDOWN_NONE whatever it was before, and the check that follows
    returns 0 for every reason whose ordinal is strictly between
    LOCKDOWN_NONE and LOCKDOWN_CONFIDENTIALITY_MAX. *)
Theorem lift_then_check_unrestricted :
  forall (key : Z) (k : kernel) (what : N),
    (LOCKDOWN_NONE < what)%N ->
    (what < LOCKDOWN_CONFIDENTIALITY_MAX)%N ->
    kernel_locked_down (snd (sysrq_handle_lockdown_lift key k)) = LOCKDOWN_NONE /\
    fst (lockdown_is_locked_down what (snd (sysrq_handle_lockdown_lift key k))) = 0.
Proof.
  intros key k what Hlo Hhi.
  split; [apply sysrq_handle_lockdown_lift_level|].
  rewrite lockdown_is_locked_down_valid by exact Hhi.
  rewrite sysrq_handle_lockdown_lift_level.
  apply N.leb_gt in Hlo. now rewrite Hlo.
Qed.

Lemma lift_then_check_unrestricted_witness :
  (LOCKDOWN_NONE < LOCKDOWN_TRACEFS)%N /\
  (LOCKDOWN_TRACEFS < LOCKDOWN_CONFIDENTIALITY_MAX)%N /\
  kernel_locked_down (snd (sysrq_handle_lockdown_lift 120 locked_confidentiality))
  = LOCKDOWN_NONE /\
  fst (lockdown_is_locked_down LOCKDOWN_TRACEFS
         (snd (sysrq_handle_lockdown_lift 120 locked_confidentiality))) = 0.
Proof.
  split; [reflexivity|]. split; [reflexivity|].
  apply (lift_then_check_unrestricted 120 locked_confidentiality LOCKDOWN_TRACEFS);
    reflexivity.
Defined.

(* ------------------------------------------------------------------ *)
(** ** The early parameter *)

Lemma lockdown_param_cases (tok : cbuf) (k : kernel) :
  lockdown_param (Some tok) k =
  if list_eq_dec ascii_dec (cstr tok) (lit "integrity") then
    (0, snd (lock_kernel_down "command line" LOCKDOWN_INTEGRITY_MAX k))
  else if list_eq_dec ascii_dec (cstr tok) (lit "confidentiality") then
    (0, snd (lock_kernel_down "command line" LOCKDOWN_CONFIDENTIALITY_MAX k))
  else (- EINVAL, k).
Proof.
  unfold lockdown_param. rewrite !strcmp_eqb.
  change (cstr (lit "integrity")) with (lit "integrity").
  change (cstr (lit "confidentiality")) with (lit "confidentiality").
  destruct (list_eq_dec ascii_dec (cstr tok) (lit "integrity")) as [_|_].
  - unfold bind. now destruct (lock_kernel_down _ _ k).
  - destruct (list_eq_dec ascii_dec (cstr tok) (lit "confidentiality")) as [_|_];
      [|reflexivity].
    unfold bind. now destruct (lock_kernel_down _ _ k).
Qed.

(** C6.  The early parameter handler returns -EINVAL and leaves the state
    alone for a NULL argument and for every string other than "integrity"
    and "confidentiality"; for "integrity" it returns 0 after a raise to
    LOCKDOWN_INTEGRITY_MAX and for "confidentiality" it returns 0 after a
    raise to LOCKDOWN_CONFIDENTIALITY_MAX. *)
Theorem lockdown_param_tokens :
  forall k : kernel,
    lockdown_param None k = (- EINVAL, k) /\
    (forall tok : cbuf,
       cstr tok = lit "integrity" ->
       lockdown_param (Some tok) k =
       (0, snd (lock_kernel_down "command line" LOCKDOWN_INTEGRITY_MAX k))) /\
    (forall tok : cbuf,
       cstr tok = lit "confidentiality" ->
       lockdown_param (Some tok) k =
       (0, snd (lock_kernel_down "command line" LOCKDOWN_CONFIDENTIALITY_MAX k))) /\
    (forall tok : cbuf,
       cstr tok <> lit "integrity" ->
       cstr tok <> lit "confidentiality" ->
       lockdown_param (Some tok) k = (- EINVAL, k)).
Proof.
  intros k. split; [reflexivity|]. repeat split; intros tok.
  - intros E. rewrite lockdown_param_cases.
    now destruct (list_eq_dec ascii_dec (cstr tok) (lit "integrity")).
  - intros E. rewrite lockdown_param_cases, E.
    destruct (list_eq_dec ascii_dec (lit "confidentiality") (lit "integrity"));
      [discriminate|].
    now destruct (list_eq_dec ascii_dec (lit "confidentiality") (lit "confidentiality")).
  - intros E1 E2. rewrite lockdown_param_cases.
    destruct (list_eq_dec ascii_dec (cstr tok) (lit "integrity")); [contradiction|].
    now destruct (list_eq_dec ascii_dec (cstr tok) (lit "confidentiality")).
Qed.

Lemma lockdown_param_tokens_witness :
  (cstr (lit "integrity") = lit "integrity" /\
   lockdown_param (Some (lit "integrity")) (boot "swapper") =
   (0, snd (lock_kernel_down "command line" LOCKDOWN_INTEGRITY_MAX (boot "swapper")))) /\
  (cstr (lit "confidentiality") = lit "confidentiality" /\
   lockdown_param (Some (lit "confidentiality")) (boot "swapper") =
   (0, snd (lock_kernel_down "command line" LOCKDOWN_CONFIDENTIALITY_MAX
              (boot "swapper")))) /\
  (cstr (lit "none") <> lit "integrity" /\
   cstr (lit "none") <> lit "confidentiality" /\
   lockdown_param (Some (lit "none")) (boot "swapper") = (- EINVAL, boot "swapper")).
Proof.
  pose proof (lockdown_param_tokens (boot "swapper")) as [_ [Hi [Hc Hx]]].
  split; [split; [reflexivity | apply Hi; reflexivity]|].
  split; [split; [reflexivity | apply Hc; reflexivity]|].
  split; [discriminate|]. split; [discriminate|].
  apply Hx; discriminate.
Defined.

(** C10.  For a recognised token the early parameter handler returns 0;
    this holds also when the current level is already at or above the
    requested one, where the raise itself returns -EPERM and the state is
    left as it was (for instance "integrity" after a build that forces
    the confidentiality level). *)
Theorem lockdown_param_discards_eperm :
  forall (tok : cbuf) (L : N) (k : kernel),
    (cstr tok = lit "integrity" /\ L = LOCKDOWN_INTEGRITY_MAX) \/
    (cstr tok = lit "confidentiality" /\ L = LOCKDOWN_CONFIDENTIALITY_MAX) ->
    fst (lockdown_param (Some tok) k) = 0 /\
    ((L <= kernel_locked_down k)%N ->
       fst (lock_kernel_down "command line" L k) = - EPERM /\
       lockdown_param (Some tok) k = (0, k)).
Proof.
  intros tok L k H.
  assert (lockdown_param (Some tok) k = (0, snd (lock_kernel_down "command line" L k)))
    as E.
  { rewrite lockdown_param_cases.
    destruct H as [[E ->]|[E ->]]; rewrite E.
    - now destruct (list_eq_dec ascii_dec (lit "integrity") (lit "integrity")).
    - destruct (list_eq_dec ascii_dec (lit "confidentiality") (lit "integrity"));
        [discriminate|].
      now destruct
        (list_eq_dec ascii_dec (lit "confidentiality") (lit "confidentiality")). }
  rewrite E. split; [reflexivity|].
  intros HL. now rewrite lock_kernel_down_refuse.
Qed.

Lemma lockdown_param_discards_eperm_witness :
  ((cstr (lit "integrity") = lit "integrity" /\
    LOCKDOWN_INTEGRITY_MAX = LOCKDOWN_INTEGRITY_MAX) \/
   (cstr (lit "integrity") = lit "confidentiality" /\
    LOCKDOWN_INTEGRITY_MAX = LOCKDOWN_CONFIDENTIALITY_MAX)) /\
  (LOCKDOWN_INTEGRITY_MAX <= kernel_locked_down forced_confidentiality)%N /\
  fst (lockdown_param (Some (lit "integrity")) forced_confidentiality) = 0 /\
  fst (lock_kernel_down "command line" LOCKDOWN_INTEGRITY_MAX forced_confidentiality)
  = - EPERM /\
  lockdown_param (Some (lit "integrity")) forced_confidentiality
  = (0, forced_confidentiality).
Proof.
  assert ((cstr (lit "integrity") = lit "integrity" /\
           LOCKDOWN_INTEGRITY_MAX = LOCKDOWN_INTEGRITY_MAX) \/
          (cstr (lit "integrity") = lit "confidentiality" /\
           LOCKDOWN_INTEGRITY_MAX = LOCKDOWN_CONFIDENTIALITY_MAX)) as H
    by (left; split; reflexivity).
  assert (LOCKDOWN_INTEGRITY_MAX <= kernel_locked_down forced_confidentiality)%N
    as HL by discriminate.
  pose proof (lockdown_param_discards_eperm
                (lit "integrity") LOCKDOWN_INTEGRITY_MAX forced_confidentiality H)
    as [H0 Hk].
  split; [exact H|]. split; [exact HL|]. split; [exact H0|]. exact (Hk HL).
Defined.

(* ------------------------------------------------------------------ *)
(** ** The securityfs write *)

Lemma name_level_Some (name : cbuf) (L : N) :
  name_level name = Some L <-> In L lockdown_levels /\ level_name L = name.
Proof.
  unfold name_level, lockdown_levels, level_name. cbn [find].
  change (lockdown_reasons LOCKDOWN_NONE) with (Some "none"%string).
  change (lockdown_reasons LOCKDOWN_INTEGRITY_MAX) with (Some "integrity"%string).
  change (lockdown_reasons LOCKDOWN_CONFIDENTIALITY_MAX)
    with (Some "confidentiality"%string).
  split.
  - destruct (list_eq_dec ascii_dec name (lit "none")) as [->|_];
      [intros [= <-]; cbn; auto|].
    destruct (list_eq_dec ascii_dec name (lit "integrity")) as [->|_];
      [intros [= <-]; cbn; auto|].
    destruct (list_eq_dec ascii_dec name (lit "confidentiality")) as [->|_];
      [intros [= <-]; cbn; auto | discriminate].
  - intros [[<-|[<-|[<-|[]]]] <-]; reflexivity.
Qed.

Lemma name_level_None (name : cbuf) :
  name_level name = None <->
  forall L, In L lockdown_levels -> level_name L <> name.
Proof.
  split.
  - intros HN L HL E.
    assert (name_level name = Some L) as HS by (apply name_level_Some; auto).
    congruence.
  - intros H. destruct (name_level name) as [L|] eqn:E; [|reflexivity].
    apply name_level_Some in E as [HL E]. now apply H in HL.
Qed.

Lemma lockdown_write_step_cases (state : cbuf) (err : Z) (level : N) (k : kernel) :
  lockdown_write_step state err level k =
  match lockdown_reasons level with
  | Some label =>
      if list_eq_dec ascii_dec (cstr state) (cstr (lit label))
      then lock_kernel_down "securityfs" level k
      else (err, k)
  | None => (err, k)
  end.
Proof.
  unfold lockdown_write_step.
  destruct (lockdown_reasons level) as [label|]; [|reflexivity].
  rewrite strcmp_eqb.
  now destruct (list_eq_dec ascii_dec (cstr state) (cstr (lit label))).
Qed.

Lemma lockdown_write_step_hit (state : cbuf) (err : Z) (level : N) (label : string)
      (k : kernel) :
  lockdown_reasons level = Some label ->
  cstr state = lit label ->
  lockdown_write_step state err level k = lock_kernel_down "securityfs" level k.
Proof.
  intros Hl E. rewrite lockdown_write_step_cases, Hl, E.
  destruct (list_eq_dec ascii_dec (lit label) (cstr (lit label))) as [_|NE];
    [reflexivity|].
  exfalso. apply NE. now rewrite <- E, cstr_idem.
Qed.

Lemma lockdown_write_step_miss (state : cbuf) (err : Z) (level : N) (label : string)
      (k : kernel) :
  lockdown_reasons level = Some label ->
  cstr state <> cstr (lit label) ->
  lockdown_write_step state err level k = (err, k).
Proof.
  intros Hl NE. rewrite lockdown_write_step_cases, Hl.
  now destruct (list_eq_dec ascii_dec (cstr state) (cstr (lit label))).
Qed.

Lemma lockdown_write_loop_levels (state : cbuf) (k : kernel) :
  lockdown_write_loop state (- EINVAL) lockdown_levels k =
  match name_level (cstr state) with
  | Some L => lock_kernel_down "securityfs" L k
  | None => (- EINVAL, k)
  end.
Proof.
  unfold lockdown_levels. cbn [lockdown_write_loop]. unfold bind, ret.
  destruct (list_eq_dec ascii_dec (cstr state) (lit "none")) as [E|E1];
    [|destruct (list_eq_dec ascii_dec (cstr state) (lit "integrity")) as [E|E2];
      [|destruct (list_eq_dec ascii_dec (cstr state) (lit "confidentiality"))
          as [E|E3]]].
  - rewrite (lockdown_write_step_hit state _ LOCKDOWN_NONE "none" k eq_refl E).
    destruct (lock_kernel_down "securityfs" LOCKDOWN_NONE k) as [e1 k1] eqn:R.
    rewrite (lockdown_write_step_miss state _ LOCKDOWN_INTEGRITY_MAX "integrity" _ eq_refl)
      by (rewrite E; discriminate).
    rewrite (lockdown_write_step_miss state _ LOCKDOWN_CONFIDENTIALITY_MAX "confidentiality" _ eq_refl)
      by (rewrite E; discriminate).
    now rewrite E.
  - rewrite (lockdown_write_step_miss state _ LOCKDOWN_NONE "none" _ eq_refl)
      by (rewrite E; discriminate).
    rewrite (lockdown_write_step_hit state _ LOCKDOWN_INTEGRITY_MAX "integrity" k eq_refl E).
    destruct (lock_kernel_down "securityfs" LOCKDOWN_INTEGRITY_MAX k)
      as [e1 k1] eqn:R.
    rewrite (lockdown_write_step_miss state _ LOCKDOWN_CONFIDENTIALITY_MAX "confidentiality" _ eq_refl)
      by (rewrite E; discriminate).
    now rewrite E.
  - rewrite (lockdown_write_step_miss state _ LOCKDOWN_NONE "none" _ eq_refl)
      by (rewrite E; discriminate).
    rewrite (lockdown_write_step_miss state _ LOCKDOWN_INTEGRITY_MAX "integrity" _ eq_refl)
      by (rewrite E; discriminate).
    rewrite (lockdown_write_step_hit state _ LOCKDOWN_CONFIDENTIALITY_MAX "confidentiality" k eq_refl E).
    destruct (lock_kernel_down "securityfs" LOCKDOWN_CONFIDENTIALITY_MAX k)
      as [e1 k1] eqn:R.
    now rewrite E.
  - rewrite (lockdown_write_step_miss state _ LOCKDOWN_NONE "none" _ eq_refl) by exact E1.
    rewrite (lockdown_write_step_miss state _ LOCKDOWN_INTEGRITY_MAX "integrity" _ eq_refl) by exact E2.
    rewrite (lockdown_write_step_miss state _ LOCKDOWN_CONFIDENTIALITY_MAX "confidentiality" _ eq_refl)
      by exact E3.
    assert (name_level (cstr state) = None) as ->; [|reflexivity].
    apply name_level_None.
    intros L [<-|[<-|[<-|[]]]] EL; [apply E1|apply E2|apply E3];
      symmetry; exact EL.
Qed.

(** The write of a text payload, copied in full. *)
Section TextPayload.

Variable payload : cbuf.
Hypothesis payload_text : is_text payload = true.

(** What the newline test of [lockdown_write] leaves in the buffer. *)
Lemma chomp_cstr :
  cstr (if (0 <? strlen (payload ++ [NUL]))%nat
           && Ascii.eqb (nth (strlen (payload ++ [NUL]) - 1) (payload ++ [NUL]) NUL) LF
        then store (payload ++ [NUL]) (strlen (payload ++ [NUL]) - 1) NUL
        else payload ++ [NUL])
  = strip_newline payload.
Proof.
  pose proof payload_text as Ht. revert Ht.
  unfold strlen, strip_newline.
  rewrite (cstr_text_nul payload [] payload_text).
  destruct payload as [|c p]; [reflexivity|]. intros Ht.
  change (0 <? List.length (c :: p))%nat with true. cbn [andb].
  rewrite nth_last_app by discriminate.
  destruct (Ascii.eqb (last (c :: p) NUL) LF).
  - rewrite store_last_app by discriminate.
    apply cstr_text_nul, is_text_removelast, Ht.
  - apply cstr_text_nul, Ht.
Qed.

Lemma lockdown_write_text (k : kernel) :
  lockdown_write payload (List.length payload) k =
  match name_level (strip_newline payload) with
  | Some L =>
      let (err, k') := lock_kernel_down "securityfs" L k in
      (if err =? 0 then Z.of_nat (List.length payload) else err, k')
  | None => (- EINVAL, k)
  end.
Proof.
  unfold lockdown_write, memdup_user_nul.
  rewrite Nat.leb_refl, firstn_all. cbv zeta. unfold bind, ret.
  rewrite lockdown_write_loop_levels, chomp_cstr.
  now destruct (name_level (strip_newline payload)).
Qed.

End TextPayload.

Example lockdown_write_case_sensitive :
  lockdown_write (lit "Integrity") 9 (boot "sh") = (- EINVAL, boot "sh").
Proof. reflexivity. Qed.

Example lockdown_write_two_newlines :
  lockdown_write (lit "integrity" ++ [LF; LF]) 11 (boot "sh") = (- EINVAL, boot "sh").
Proof. reflexivity. Qed.

Example lockdown_write_short_buffer :
  lockdown_write (lit "integrity") 10 (boot "sh") = (- EFAULT, boot "sh").
Proof. reflexivity. Qed.

(** C5.  For a text payload (no NUL byte) of n bytes, let s be the payload
    without one trailing newline, if it has one.  If s is the label of no
    level of [lockdown_levels] (in particular if s is empty) the write
    returns -EINVAL and the state is the one before the call; if s is the
    label of a level L not above the current one it returns -EPERM, which
    differs from -EINVAL, and the state is the one before the call; if s is
    the label of a level L above the current one it returns n and the
    current level becomes L. *)
Theorem lockdown_write_correct :
  forall (payload : cbuf) (k : kernel),
    is_text payload = true ->
    ((forall L, In L lockdown_levels -> level_name L <> strip_newline payload) ->
       lockdown_write payload (List.length payload) k = (- EINVAL, k)) /\
    (strip_newline payload = [] ->
       lockdown_write payload (List.length payload) k = (- EINVAL, k)) /\
    (forall L, In L lockdown_levels -> level_name L = strip_newline payload ->
       (L <= kernel_locked_down k)%N ->
       lockdown_write payload (List.length payload) k = (- EPERM, k)) /\
    (forall L, In L lockdown_levels -> level_name L = strip_newline payload ->
       (kernel_locked_down k < L)%N ->
       fst (lockdown_write payload (List.length payload) k)
       = Z.of_nat (List.length payload) /\
       kernel_locked_down (snd (lockdown_write payload (List.length payload) k)) = L) /\
    - EINVAL <> - EPERM.
Proof.
  intros payload k Ht. rewrite (lockdown_write_text payload Ht k).
  split; [|split; [|split; [|split]]].
  - intros H. apply name_level_None in H. now rewrite H.
  - intros E. rewrite E. reflexivity.
  - intros L HL E Hle.
    assert (name_level (strip_newline payload) = Some L) as ->
      by (apply name_level_Some; auto).
    now rewrite lock_kernel_down_refuse.
  - intros L HL E Hlt.
    assert (name_level (strip_newline payload) = Some L) as ->
      by (apply name_level_Some; auto).
    rewrite lock_kernel_down_raise by exact Hlt. split; reflexivity.
  - discriminate.
Qed.

Lemma lockdown_write_correct_witness :
  (is_text (lit "confidentiality" ++ [LF]) = true /\
   In LOCKDOWN_CONFIDENTIALITY_MAX lockdown_levels /\
   level_name LOCKDOWN_CONFIDENTIALITY_MAX
   = strip_newline (lit "confidentiality" ++ [LF]) /\
   (kernel_locked_down (boot "sh") < LOCKDOWN_CONFIDENTIALITY_MAX)%N /\
   fst (lockdown_write (lit "confidentiality" ++ [LF])
          (List.length (lit "confidentiality" ++ [LF])) (boot "sh"))
   = Z.of_nat (List.length (lit "confidentiality" ++ [LF])) /\
   kernel_locked_down
     (snd (lockdown_write (lit "confidentiality" ++ [LF])
             (List.length (lit "confidentiality" ++ [LF])) (boot "sh")))
   = LOCKDOWN_CONFIDENTIALITY_MAX) /\
  (is_text (lit "bogus") = true /\
   (forall L, In L lockdown_levels -> level_name L <> strip_newline (lit "bogus")) /\
   lockdown_write (lit "bogus") (List.length (lit "bogus")) written_integrity
   = (- EINVAL, written_integrity)) /\
  (is_text (lit "none") = true /\
   In LOCKDOWN_NONE lockdown_levels /\
   level_name LOCKDOWN_NONE = strip_newline (lit "none") /\
   (LOCKDOWN_NONE <= kernel_locked_down written_integrity)%N /\
   lockdown_write (lit "none") (List.length (lit "none")) written_integrity
   = (- EPERM, written_integrity)).
Proof.
  split; [|split].
  - assert (is_text (lit "confidentiality" ++ [LF]) = true) as Ht by reflexivity.
    assert (In LOCKDOWN_CONFIDENTIALITY_MAX lockdown_levels) as HL
      by (right; right; left; reflexivity).
    pose proof (lockdown_write_correct (lit "confidentiality" ++ [LF]) (boot "sh") Ht)
      as [_ [_ [_ [Hup _]]]].
    split; [exact Ht|]. split; [exact HL|]. split; [reflexivity|].
    split; [reflexivity|].
    apply (Hup LOCKDOWN_CONFIDENTIALITY_MAX HL); reflexivity.
  - assert (is_text (lit "bogus") = true) as Ht by reflexivity.
    assert (forall L, In L lockdown_levels -> level_name L <> strip_newline (lit "bogus"))
      as Hno by (intros L [<-|[<-|[<-|[]]]]; discriminate).
    pose proof (lockdown_write_correct (lit "bogus") written_integrity Ht)
      as [Hinv _].
    split; [exact Ht|]. split; [exact Hno|]. exact (Hinv Hno).
  - assert (is_text (lit "none") = true) as Ht by reflexivity.
    assert (In LOCKDOWN_NONE lockdown_levels) as HL by (left; reflexivity).
    pose proof (lockdown_write_correct (lit "none") written_integrity Ht)
      as [_ [_ [Hdown _]]].
    split; [exact Ht|]. split; [exact HL|]. split; [reflexivity|].
    split; [discriminate|].
    apply (Hdown LOCKDOWN_NONE HL); [reflexivity | discriminate].
Defined.

(** C9.  LOCKDOWN_NONE is one of the levels of [lockdown_levels], its
    label is "none", and no level is below it; writing "none", with or
    without a trailing newline, returns -EPERM whatever the current level
    is, and the state is the one before the call. *)
Theorem lockdown_write_none_refused :
  forall k : kernel,
    In LOCKDOWN_NONE lockdown_levels /\
    lockdown_reasons LOCKDOWN_NONE = Some "none"%string /\
    (forall L : N, (LOCKDOWN_NONE <= L)%N) /\
    lockdown_write (lit "none") 4 k = (- EPERM, k) /\
    lockdown_write (lit "none" ++ [LF]) 5 k = (- EPERM, k).
Proof.
  intros k.
  split; [left; reflexivity|]. split; [reflexivity|].
  split; [intros L; apply N.le_0_l|].
  split.
  - change 4%nat with (List.length (lit "none")).
    rewrite (lockdown_write_text (lit "none") eq_refl k).
    change (name_level (strip_newline (lit "none"))) with (Some LOCKDOWN_NONE).
    cbv beta iota. now rewrite lock_kernel_down_refuse by apply N.le_0_l.
  - change 5%nat with (List.length (lit "none" ++ [LF])).
    rewrite (lockdown_write_text (lit "none" ++ [LF]) eq_refl k).
    change (name_level (strip_newline (lit "none" ++ [LF]))) with (Some LOCKDOWN_NONE).
    cbv beta iota. now rewrite lock_kernel_down_refuse by apply N.le_0_l.
Qed.

(* ------------------------------------------------------------------ *)
(** ** Reachable levels *)

Lemma lock_kernel_down_level (where_ : string) (L : N) (k : kernel) :
  kernel_locked_down (snd (lock_kernel_down where_ L k)) = kernel_locked_down k \/
  kernel_locked_down (snd (lock_kernel_down where_ L k)) = L.
Proof.
  destruct (lock_kernel_down_cases where_ L k) as [[_ ->]|[_ ->]]; cbn; auto.
Qed.

Lemma lockdown_write_loop_level (state : cbuf) (levels : list N) :
  forall (err : Z) (k : kernel),
    kernel_locked_down (snd (lockdown_write_loop state err levels k))
    = kernel_locked_down k \/
    In (kernel_locked_down (snd (lockdown_write_loop state err levels k))) levels.
Proof.
  induction levels as [|level levels IH]; intros err k; [left; reflexivity|].
  cbn [lockdown_write_loop]. unfold bind.
  destruct (lockdown_write_step state err level k) as [e1 k1] eqn:R.
  assert (kernel_locked_down k1 = kernel_locked_down k \/
          kernel_locked_down k1 = level) as Hk1.
  { rewrite lockdown_write_step_cases in R.
    destruct (lockdown_reasons level) as [label|]; [|injection R as _ <-; auto].
    destruct (list_eq_dec ascii_dec (cstr state) (cstr (lit label)));
      [|injection R as _ <-; auto].
    pose proof (lock_kernel_down_level "securityfs" level k) as H.
    rewrite R in H. exact H. }
  destruct (IH e1 k1) as [H|H]; [|right; right; exact H].
  rewrite H. destruct Hk1 as [->| ->]; [left; reflexivity | right; left; reflexivity].
Qed.

Lemma lockdown_write_level (buf : cbuf) (n : nat) (k : kernel) :
  kernel_locked_down (snd (lockdown_write buf n k)) = kernel_locked_down k \/
  In (kernel_locked_down (snd (lockdown_write buf n k))) lockdown_levels.
Proof.
  unfold lockdown_write.
  destruct (memdup_user_nul buf n) as [e|state]; [left; reflexivity|].
  cbv zeta. unfold bind, ret.
  match goal with
  | |- context [lockdown_write_loop ?s ?e ?l k] =>
      pose proof (lockdown_write_loop_level s l e k) as H;
      destruct (lockdown_write_loop s e l k) as [e1 k1]
  end.
  exact H.
Qed.

Lemma lockdown_param_level (level : option cbuf) (k : kernel) :
  kernel_locked_down (snd (lockdown_param level k)) = kernel_locked_down k \/
  In (kernel_locked_down (snd (lockdown_param level k))) lockdown_levels.
Proof.
  destruct level as [tok|]; [|left; reflexivity].
  rewrite lockdown_param_cases.
  destruct (list_eq_dec ascii_dec (cstr tok) (lit "integrity")) as [_|_];
    [|destruct (list_eq_dec ascii_dec (cstr tok) (lit "confidentiality")) as [_|_]];
    cbn [snd]; [| |left; reflexivity].
  - destruct (lock_kernel_down_level "command line" LOCKDOWN_INTEGRITY_MAX k) as [->| ->];
      [left; reflexivity | right; cbn; auto].
  - destruct (lock_kernel_down_level "command line" LOCKDOWN_CONFIDENTIALITY_MAX k)
      as [->| ->]; [left; reflexivity | right; cbn; auto].
Qed.

Lemma lockdown_lsm_init_level (cfg : config) (k : kernel) :
  kernel_locked_down (snd (lockdown_lsm_init cfg k)) = kernel_locked_down k \/
  In (kernel_locked_down (snd (lockdown_lsm_init cfg k))) lockdown_levels.
Proof.
  unfold lockdown_lsm_init, bind, ret.
  destruct (CONFIG_LOCK_DOWN_KERNEL_FORCE cfg); [left; reflexivity| |].
  - pose proof (lock_kernel_down_level "Kernel configuration" LOCKDOWN_INTEGRITY_MAX k)
      as H.
    destruct (lock_kernel_down _ _ k) as [e k1]. cbn [snd] in *.
    destruct H as [->| ->]; [left; reflexivity | right; cbn; auto].
  - pose proof (lock_kernel_down_level "Kernel configuration"
                  LOCKDOWN_CONFIDENTIALITY_MAX k) as H.
    destruct (lock_kernel_down _ _ k) as [e k1]. cbn [snd] in *.
    destruct H as [->| ->]; [left; reflexivity | right; cbn; auto].
Qed.

Lemma run_level (cfg : config) (o : op) (k : kernel) :
  op_allowed cfg o = true ->
  kernel_locked_down (run cfg o k) = kernel_locked_down k \/
  In (kernel_locked_down (run cfg o k)) lockdown_levels.
Proof.
  destruct o as [|level|where_ level|what| |buf n|key|comm]; cbn [run op_allowed];
    intros Hok.
  - apply lockdown_lsm_init_level.
  - apply lockdown_param_level.
  - destruct (lock_kernel_down_level where_ level k) as [->| ->];
      [left; reflexivity | right].
    apply existsb_exists in Hok as [L [HL E]].
    apply N.eqb_eq in E. now subst.
  - left. apply lockdown_is_locked_down_level.
  - left. reflexivity.
  - apply lockdown_write_level.
  - right. rewrite sysrq_handle_lockdown_lift_level. left. reflexivity.
  - left. reflexivity.
Qed.

Lemma reachable_level (cfg : config) (k : kernel) :
  reachable cfg k -> In (kernel_locked_down k) lockdown_levels.
Proof.
  induction 1 as [comm|k o _ IH Hok]; [left; reflexivity|].
  destruct (run_level cfg o k Hok) as [->|H]; assumption.
Qed.

(* ------------------------------------------------------------------ *)
(** ** The securityfs read *)

Lemma lockdown_read_pure (k : kernel) : snd (lockdown_read k) = k.
Proof. reflexivity. Qed.

Lemma lockdown_read_level (k : kernel) :
  fst (lockdown_read k) =
  fst (lockdown_read (mkKernel (kernel_locked_down k) EmptyString [])).
Proof. reflexivity. Qed.

(** C4.  In every reachable state the text served by a read is one line
    ended by a newline and holding no other newline; its space-separated
    tokens, brackets removed, are the labels of [lockdown_levels] in
    order; exactly one token is bracketed, and it is the label of the
    current level.  When the current level is LOCKDOWN_INTEGRITY_MAX the
    text is "none [integrity] confidentiality" followed by a newline. *)
Theorem lockdown_read_format :
  forall (cfg : config) (k : kernel),
    reachable cfg k ->
    exists line : cbuf,
      fst (lockdown_read k) = line ++ [LF] /\
      forallb (fun c => negb (Ascii.eqb c LF)) line = true /\
      map unbracket (tokens line) = map level_name lockdown_levels /\
      filter bracketed (tokens line)
      = [lit "[" ++ level_name (kernel_locked_down k) ++ lit "]"] /\
      (kernel_locked_down k = LOCKDOWN_INTEGRITY_MAX ->
       fst (lockdown_read k) = lit "none [integrity] confidentiality" ++ [LF]).
Proof.
  intros cfg k Hk. apply reachable_level in Hk.
  rewrite lockdown_read_level.
  exists (removelast
            (fst (lockdown_read (mkKernel (kernel_locked_down k) EmptyString [])))).
  destruct Hk as [<-|[<-|[<-|[]]]]; repeat split; discriminate.
Qed.

Lemma lockdown_read_format_witness :
  reachable (mkConfig FORCE_NONE false) written_integrity /\
  fst (lockdown_read written_integrity)
  = lit "none [integrity] confidentiality" ++ [LF].
Proof.
  assert (reachable (mkConfig FORCE_NONE false) written_integrity) as Hr
    by (apply reachable_step; [apply reachable_boot | reflexivity]).
  split; [exact Hr|].
  destruct (lockdown_read_format _ _ Hr) as [line [_ [_ [_ [_ H]]]]].
  apply H. reflexivity.
Defined.

(** Outside the reachable states: after a raise to a reason that is not
    one of [lockdown_levels], no token of the line is bracketed. *)
Remark lockdown_read_off_level :
  fst (lockdown_read (snd (lock_kernel_down "caller" LOCKDOWN_KEXEC (boot "sh"))))
  = lit "none integrity confidentiality" ++ [LF].
Proof. reflexivity. Qed.

(** Raises to two levels A < B, issued one after the other in either
    order, end at B; issued after B, the raise to A is refused. *)
Lemma lock_kernel_down_either_order (wa wb : string) (A B : N) (k : kernel) :
  (kernel_locked_down k < A)%N -> (A < B)%N ->
  kernel_locked_down
    (snd (lock_kernel_down wb B (snd (lock_kernel_down wa A k)))) = B /\
  kernel_locked_down
    (snd (lock_kernel_down wa A (snd (lock_kernel_down wb B k)))) = B /\
  fst (lock_kernel_down wa A (snd (lock_kernel_down wb B k))) = - EPERM.
Proof.
  intros HA HAB.
  rewrite (lock_kernel_down_raise wa A k HA).
  rewrite (lock_kernel_down_raise wb B k) by lia. cbn [snd].
  rewrite lock_kernel_down_raise by exact HAB.
  rewrite lock_kernel_down_refuse by (cbn; lia).
  repeat split.
Qed.

(* ================================================================== *)
(** * Further properties of the code *)

(* ------------------------------------------------------------------ *)
(** ** The raise operation as a maximum *)

Lemma lock_kernel_down_level_max (where_ : string) (L : N) (k : kernel) :
  kernel_locked_down (snd (lock_kernel_down where_ L k))
  = N.max (kernel_locked_down k) L.
Proof.
  destruct (lock_kernel_down_cases where_ L k) as [[H ->]|[H ->]]; cbn [snd];
    [cbn; symmetry; apply N.max_r; lia | symmetry; apply N.max_l; exact H].
Qed.

Lemma last_cons_default {A} (a d : A) (l : list A) : last (a :: l) d = last l a.
Proof.
  revert a d. induction l as [|b l IH]; intros a d; [reflexivity|].
  change (last (a :: b :: l) d) with (last (b :: l) d).
  now rewrite !IH.
Qed.

(** X1.  After a call of lock_kernel_down the level is the maximum of the
    level before and the level asked for, whatever the call returned; and
    after a run of raise requests the last level observed is the maximum
    of the starting level and all the levels asked for. *)
Theorem lock_kernel_down_is_max :
  forall (reqs : list (string * N)) (k : kernel),
    (forall where_ L,
       kernel_locked_down (snd (lock_kernel_down where_ L k))
       = N.max (kernel_locked_down k) L) /\
    last (raise_all reqs k) (kernel_locked_down k)
    = fold_left N.max (map snd reqs) (kernel_locked_down k).
Proof.
  intros reqs k. split; [intros; apply lock_kernel_down_level_max|].
  revert k. induction reqs as [|[where_ L] reqs IH]; intros k; [reflexivity|].
  cbn [raise_all map fold_left snd]. rewrite last_cons_default, IH.
  now rewrite lock_kernel_down_level_max.
Qed.

(** X2.  Denial is idempotent: once a raise to L has been issued, with
    either result, a further raise to L returns -EPERM and leaves the
    whole state, log included, as it is. *)
Theorem lock_kernel_down_again :
  forall (w1 w2 : string) (L : N) (k : kernel),
    lock_kernel_down w2 L (snd (lock_kernel_down w1 L k))
    = (- EPERM, snd (lock_kernel_down w1 L k)).
Proof.
  intros w1 w2 L k. apply lock_kernel_down_refuse.
  rewrite lock_kernel_down_level_max. apply N.le_max_r.
Qed.

(* ------------------------------------------------------------------ *)
(** ** Raises and checks *)

Lemma lockdown_is_locked_down_restricted (what : N) (k : kernel) :
  (what <= kernel_locked_down k)%N ->
  fst (lockdown_is_locked_down what k) = - EPERM.
Proof.
  intros H. destruct (N.lt_ge_cases what LOCKDOWN_CONFIDENTIALITY_MAX) as [Hv|Hv].
  - rewrite lockdown_is_locked_down_valid by exact Hv.
    apply N.leb_le in H. now rewrite H.
  - now rewrite lockdown_is_locked_down_sentinel.
Qed.

Lemma lockdown_is_locked_down_restricted_inv (what : N) (k : kernel) :
  (what < LOCKDOWN_CONFIDENTIALITY_MAX)%N ->
  fst (lockdown_is_locked_down what k) = - EPERM ->
  (what <= kernel_locked_down k)%N.
Proof.
  intros Hv. rewrite lockdown_is_locked_down_valid by exact Hv.
  destruct (N.leb_spec what (kernel_locked_down k)) as [H|H];
    [intros _; exact H | discriminate].
Qed.

(** X3.  A raise to L makes every reason up to L restricted, whether the
    raise returned 0 or -EPERM: the check that follows returns -EPERM for
    every reason whose ordinal is at most L. *)
Theorem raise_then_check_restricted :
  forall (where_ : string) (L what : N) (k : kernel),
    (what <= L)%N ->
    fst (lockdown_is_locked_down what (snd (lock_kernel_down where_ L k))) = - EPERM.
Proof.
  intros where_ L what k H. apply lockdown_is_locked_down_restricted.
  rewrite lock_kernel_down_level_max. lia.
Qed.

Lemma raise_then_check_restricted_witness :
  (LOCKDOWN_DEV_MEM <= LOCKDOWN_INTEGRITY_MAX)%N /\
  fst (lockdown_is_locked_down LOCKDOWN_DEV_MEM
         (snd (lock_kernel_down "command line" LOCKDOWN_INTEGRITY_MAX (boot "cat"))))
  = - EPERM.
Proof.
  split; [discriminate|].
  apply (raise_then_check_restricted
           "command line" LOCKDOWN_INTEGRITY_MAX LOCKDOWN_DEV_MEM (boot "cat")).
  discriminate.
Defined.

(** X4.  The check is monotone: if a reason below the sentinel is
    restricted in one state, then every reason of smaller or equal ordinal
    is restricted in every state whose level is at least as high. *)
Theorem lockdown_is_locked_down_monotone :
  forall (what what' : N) (k k' : kernel),
    (what < LOCKDOWN_CONFIDENTIALITY_MAX)%N ->
    (what' <= what)%N ->
    (kernel_locked_down k <= kernel_locked_down k')%N ->
    fst (lockdown_is_locked_down what k) = - EPERM ->
    fst (lockdown_is_locked_down what' k') = - EPERM.
Proof.
  intros what what' k k' Hv Hw Hk Hr.
  apply lockdown_is_locked_down_restricted.
  apply lockdown_is_locked_down_restricted_inv in Hr; [lia | exact Hv].
Qed.

Lemma lockdown_is_locked_down_monotone_witness :
  (LOCKDOWN_KEXEC < LOCKDOWN_CONFIDENTIALITY_MAX)%N /\
  (LOCKDOWN_DEV_MEM <= LOCKDOWN_KEXEC)%N /\
  (kernel_locked_down written_integrity
   <= kernel_locked_down locked_confidentiality)%N /\
  fst (lockdown_is_locked_down LOCKDOWN_KEXEC written_integrity) = - EPERM /\
  fst (lockdown_is_locked_down LOCKDOWN_DEV_MEM locked_confidentiality) = - EPERM.
Proof.
  assert (LOCKDOWN_KEXEC < LOCKDOWN_CONFIDENTIALITY_MAX)%N as H1 by reflexivity.
  assert (LOCKDOWN_DEV_MEM <= LOCKDOWN_KEXEC)%N as H2 by discriminate.
  assert (kernel_locked_down written_integrity
          <= kernel_locked_down locked_confidentiality)%N as H3 by discriminate.
  assert (fst (lockdown_is_locked_down LOCKDOWN_KEXEC written_integrity) = - EPERM)
    as H4 by reflexivity.
  split; [exact H1|]. split; [exact H2|]. split; [exact H3|]. split; [exact H4|].
  exact (lockdown_is_locked_down_monotone _ _ _ _ H1 H2 H3 H4).
Defined.

(* ------------------------------------------------------------------ *)
(** ** The ratchet along a run of operations *)

Lemma lockdown_write_loop_mono (state : cbuf) (levels : list N) :
  forall (err : Z) (k : kernel),
    (kernel_locked_down k
     <= kernel_locked_down (snd (lockdown_write_loop state err levels k)))%N.
Proof.
  induction levels as [|level levels IH]; intros err k; [cbn; lia|].
  cbn [lockdown_write_loop]. unfold bind.
  destruct (lockdown_write_step state err level k) as [e1 k1] eqn:R.
  assert (kernel_locked_down k <= kernel_locked_down k1)%N as Hk1.
  { rewrite lockdown_write_step_cases in R.
    destruct (lockdown_reasons level) as [label|]; [|injection R as _ <-; lia].
    destruct (list_eq_dec ascii_dec (cstr state) (cstr (lit label)));
      [|injection R as _ <-; lia].
    pose proof (lock_kernel_down_mono "securityfs" level k) as H.
    rewrite R in H. exact H. }
  specialize (IH e1 k1). lia.
Qed.

Lemma lockdown_write_mono (buf : cbuf) (n : nat) (k : kernel) :
  (kernel_locked_down k <= kernel_locked_down (snd (lockdown_write buf n k)))%N.
Proof.
  unfold lockdown_write.
  destruct (memdup_user_nul buf n) as [e|state]; [cbn; lia|].
  cbv zeta. unfold bind, ret.
  match goal with
  | |- context [lockdown_write_loop ?s ?e ?l k] =>
      pose proof (lockdown_write_loop_mono s l e k) as H;
      destruct (lockdown_write_loop s e l k) as [e1 k1]
  end.
  exact H.
Qed.

Lemma lockdown_param_mono (level : option cbuf) (k : kernel) :
  (kernel_locked_down k <= kernel_locked_down (snd (lockdown_param level k)))%N.
Proof.
  destruct level as [tok|]; [|cbn; lia].
  rewrite lockdown_param_cases.
  destruct (list_eq_dec ascii_dec (cstr tok) (lit "integrity")) as [_|_];
    [|destruct (list_eq_dec ascii_dec (cstr tok) (lit "confidentiality")) as [_|_]];
    cbn [snd]; [apply lock_kernel_down_mono | apply lock_kernel_down_mono | lia].
Qed.

Lemma lockdown_lsm_init_level_max (cfg : config) (k : kernel) :
  kernel_locked_down (snd (lockdown_lsm_init cfg k))
  = N.max (kernel_locked_down k) (forced_level cfg).
Proof.
  unfold lockdown_lsm_init, forced_level, bind, ret.
  destruct (CONFIG_LOCK_DOWN_KERNEL_FORCE cfg).
  - cbn [snd]. symmetry. apply N.max_l, N.le_0_l.
  - rewrite <- (lock_kernel_down_level_max "Kernel configuration").
    now destruct (lock_kernel_down _ _ k).
  - rewrite <- (lock_kernel_down_level_max "Kernel configuration").
    now destruct (lock_kernel_down _ _ k).
Qed.

Lemma run_mono (cfg : config) (o : op) (k : kernel) :
  is_lift o = false ->
  (kernel_locked_down k <= kernel_locked_down (run cfg o k))%N.
Proof.
  destruct o as [|level|where_ level|what| |buf n|key|comm]; cbn [run is_lift];
    intros Hl; try discriminate.
  - rewrite lockdown_lsm_init_level_max. apply N.le_max_l.
  - apply lockdown_param_mono.
  - apply lock_kernel_down_mono.
  - rewrite lockdown_is_locked_down_level. lia.
  - cbn. lia.
  - apply lockdown_write_mono.
  - cbn. lia.
Qed.

Lemma run_all_mono (cfg : config) (ops : list op) :
  forall k : kernel,
    forallb (fun o => negb (is_lift o)) ops = true ->
    (kernel_locked_down k <= kernel_locked_down (run_all cfg ops k))%N.
Proof.
  unfold run_all.
  induction ops as [|o ops IH]; intros k H; [cbn; lia|].
  cbn [forallb] in H. apply andb_prop in H as [Ho Hops].
  apply negb_true_iff in Ho. cbn [fold_left].
  specialize (IH (run cfg o k) Hops).
  pose proof (run_mono cfg o k Ho). lia.
Qed.

(** X5.  Along any run of entry-point calls that contains no SysRq lift
    (initialisation, command-line arguments, direct raises to any level,
    checks, reads and writes with any arguments) the level never goes
    down, and a reason below the sentinel that was restricted before the
    run is restricted after it. *)
Theorem ratchet_without_lift :
  forall (cfg : config) (ops : list op) (k : kernel),
    forallb (fun o => negb (is_lift o)) ops = true ->
    (kernel_locked_down k <= kernel_locked_down (run_all cfg ops k))%N /\
    (forall what : N,
       (what < LOCKDOWN_CONFIDENTIALITY_MAX)%N ->
       fst (lockdown_is_locked_down what k) = - EPERM ->
       fst (lockdown_is_locked_down what (run_all cfg ops k)) = - EPERM).
Proof.
  intros cfg ops k H. pose proof (run_all_mono cfg ops k H) as Hm.
  split; [exact Hm|]. intros what Hv Hr.
  apply lockdown_is_locked_down_restricted.
  apply lockdown_is_locked_down_restricted_inv in Hr; [lia | exact Hv].
Qed.

Lemma ratchet_without_lift_witness :
  forallb (fun o => negb (is_lift o))
          [OpWrite (lit "none") 4; OpParam (Some (lit "integrity"));
           OpRaise "caller" LOCKDOWN_KEXEC; OpCheck LOCKDOWN_MSR; OpRead] = true /\
  (kernel_locked_down locked_confidentiality
   <= kernel_locked_down
        (run_all (mkConfig FORCE_NONE true)
           [OpWrite (lit "none") 4; OpParam (Some (lit "integrity"));
            OpRaise "caller" LOCKDOWN_KEXEC; OpCheck LOCKDOWN_MSR; OpRead]
           locked_confidentiality))%N.
Proof.
  split; [reflexivity|].
  apply (ratchet_without_lift (mkConfig FORCE_NONE true)
           [OpWrite (lit "none") 4; OpParam (Some (lit "integrity"));
            OpRaise "caller" LOCKDOWN_KEXEC; OpCheck LOCKDOWN_MSR; OpRead]
           locked_confidentiality).
  reflexivity.
Defined.

(* ------------------------------------------------------------------ *)
(** ** The securityfs write on arbitrary buffers *)

Lemma lockdown_write_effect (buf : cbuf) (n : nat) (k : kernel) :
  (exists L : N,
     In L lockdown_levels /\ (kernel_locked_down k < L)%N /\
     lockdown_write buf n k =
     (Z.of_nat n,
      mkKernel L (current_comm k) (klog k ++ [NoticeLockedDown "securityfs"]))) \/
  ((fst (lockdown_write buf n k) = - EFAULT \/
    fst (lockdown_write buf n k) = - EINVAL \/
    fst (lockdown_write buf n k) = - EPERM) /\
   snd (lockdown_write buf n k) = k).
Proof.
  unfold lockdown_write, memdup_user_nul.
  destruct (n <=? List.length buf)%nat; [|right; split; [left|]; reflexivity].
  cbv zeta. unfold bind, ret. rewrite lockdown_write_loop_levels.
  match goal with
  | |- context [name_level ?x] => destruct (name_level x) as [L|] eqn:E
  end; [|right; split; [right; left|]; reflexivity].
  apply name_level_Some in E as [HL _].
  destruct (lock_kernel_down_cases "securityfs" L k) as [[H ->]|[H ->]].
  - left. exists L. repeat split; assumption.
  - right. split; [right; right|]; reflexivity.
Qed.

(** X6.  Whatever the buffer and the byte count, a write either returns
    the byte count, and then the level has strictly risen to one of
    [lockdown_levels] and one "locked down from securityfs" line was
    logged, or returns -EFAULT, -EINVAL or -EPERM, and then the state is
    exactly the one before the call. *)
Theorem lockdown_write_outcome :
  forall (buf : cbuf) (n : nat) (k : kernel),
    (fst (lockdown_write buf n k) = Z.of_nat n /\
     (kernel_locked_down k < kernel_locked_down (snd (lockdown_write buf n k)))%N /\
     In (kernel_locked_down (snd (lockdown_write buf n k))) lockdown_levels /\
     klog (snd (lockdown_write buf n k))
     = klog k ++ [NoticeLockedDown "securityfs"]) \/
    ((fst (lockdown_write buf n k) = - EFAULT \/
      fst (lockdown_write buf n k) = - EINVAL \/
      fst (lockdown_write buf n k) = - EPERM) /\
     snd (lockdown_write buf n k) = k).
Proof.
  intros buf n k.
  destruct (lockdown_write_effect buf n k) as [[L [HL [Hlt ->]]]|H];
    [left; repeat split; assumption | right; exact H].
Qed.

(** X7.  At the confidentiality level nothing but the lift changes the
    state: every write fails with a negative result, and writes,
    command-line arguments, the LSM initialisation and raises to any of
    [lockdown_levels] all leave the state as it is. *)
Theorem confidentiality_is_final :
  forall k : kernel,
    kernel_locked_down k = LOCKDOWN_CONFIDENTIALITY_MAX ->
    (forall buf n,
       fst (lockdown_write buf n k) < 0 /\ snd (lockdown_write buf n k) = k) /\
    (forall level, snd (lockdown_param level k) = k) /\
    (forall cfg, snd (lockdown_lsm_init cfg k) = k) /\
    (forall where_ L,
       In L lockdown_levels -> lock_kernel_down where_ L k = (- EPERM, k)).
Proof.
  intros k Hk.
  assert (forall where_ L,
             In L lockdown_levels -> lock_kernel_down where_ L k = (- EPERM, k)) as Hr.
  { intros where_ L HL. apply lock_kernel_down_refuse. rewrite Hk.
    destruct HL as [<-|[<-|[<-|[]]]]; discriminate. }
  split; [|split; [|split]]; [| | |exact Hr].
  - intros buf n.
    destruct (lockdown_write_effect buf n k) as [[L [HL [Hlt _]]]|[He ->]].
    + exfalso. rewrite Hk in Hlt.
      destruct HL as [<-|[<-|[<-|[]]]]; discriminate.
    + split; [|reflexivity]. destruct He as [->|[->| ->]]; reflexivity.
  - intros [tok|]; [|reflexivity]. rewrite lockdown_param_cases.
    destruct (list_eq_dec ascii_dec (cstr tok) (lit "integrity")) as [_|_];
      [|destruct (list_eq_dec ascii_dec (cstr tok) (lit "confidentiality")) as [_|_]];
      cbn [snd]; [| |reflexivity]; rewrite Hr; cbn; auto.
  - intros cfg. unfold lockdown_lsm_init, bind, ret.
    destruct (CONFIG_LOCK_DOWN_KERNEL_FORCE cfg); [reflexivity| |];
      rewrite Hr; cbn; auto.
Qed.

Lemma confidentiality_is_final_witness :
  kernel_locked_down locked_confidentiality = LOCKDOWN_CONFIDENTIALITY_MAX /\
  (fst (lockdown_write (lit "confidentiality") 15 locked_confidentiality) < 0 /\
   snd (lockdown_write (lit "confidentiality") 15 locked_confidentiality)
   = locked_confidentiality).
Proof.
  split; [reflexivity|].
  apply (confidentiality_is_final locked_confidentiality eq_refl).
Defined.

(* The newline test on a buffer that may hold NUL bytes. *)

Lemma cstr_is_text (b : cbuf) : is_text (cstr b) = true.
Proof.
  unfold is_text. induction b as [|c b IH]; [reflexivity|].
  cbn [cstr]. destruct (Ascii.eqb c NUL) eqn:Hc; [reflexivity|].
  cbn [forallb]. now rewrite Hc, IH.
Qed.

Lemma cstr_split (b : cbuf) : exists rest, b ++ [NUL] = cstr b ++ NUL :: rest.
Proof.
  induction b as [|c b [rest IH]]; [exists []; reflexivity|].
  cbn [cstr]. destruct (Ascii.eqb_spec c NUL) as [->|Hc].
  - exists (b ++ [NUL]). reflexivity.
  - exists rest. cbn [app]. now rewrite IH.
Qed.

Lemma nth_last_prefix (b rest : cbuf) :
  b <> [] -> nth (List.length b - 1) (b ++ rest) NUL = last b NUL.
Proof.
  induction b as [|c b IH]; [congruence|]. intros _.
  destruct b as [|d b]; [reflexivity|].
  change (last (c :: d :: b) NUL) with (last (d :: b) NUL).
  rewrite <- IH by discriminate. cbn [List.length app].
  replace (S (S (List.length b)) - 1)%nat with (S (S (List.length b) - 1)) by lia.
  reflexivity.
Qed.

Lemma store_last_prefix (b rest : cbuf) (y : ascii) :
  b <> [] -> store (b ++ rest) (List.length b - 1) y = removelast b ++ y :: rest.
Proof.
  induction b as [|c b IH]; [congruence|]. intros _.
  destruct b as [|d b]; [reflexivity|].
  change (removelast (c :: d :: b)) with (c :: removelast (d :: b)).
  cbn [List.length app].
  replace (S (S (List.length b)) - 1)%nat with (S (S (List.length b) - 1)) by lia.
  cbn [store]. f_equal. apply IH. discriminate.
Qed.

Lemma chomp_cstr_any (payload : cbuf) :
  cstr (if (0 <? strlen (payload ++ [NUL]))%nat
           && Ascii.eqb (nth (strlen (payload ++ [NUL]) - 1) (payload ++ [NUL]) NUL) LF
        then store (payload ++ [NUL]) (strlen (payload ++ [NUL]) - 1) NUL
        else payload ++ [NUL])
  = strip_newline (cstr payload).
Proof.
  destruct (cstr_split payload) as [rest ->].
  pose proof (cstr_is_text payload) as Ht.
  unfold strlen, strip_newline. rewrite (cstr_text_nul _ rest Ht).
  destruct (cstr payload) as [|c p]; [reflexivity|].
  change (0 <? List.length (c :: p))%nat with true. cbn [andb].
  rewrite nth_last_prefix by discriminate.
  destruct (Ascii.eqb (last (c :: p) NUL) LF).
  - rewrite store_last_prefix by discriminate.
    apply cstr_text_nul, is_text_removelast, Ht.
  - apply cstr_text_nul, Ht.
Qed.

Lemma lockdown_write_any (payload : cbuf) (k : kernel) :
  lockdown_write payload (List.length payload) k =
  match name_level (strip_newline (cstr payload)) with
  | Some L =>
      let (err, k') := lock_kernel_down "securityfs" L k in
      (if err =? 0 then Z.of_nat (List.length payload) else err, k')
  | None => (- EINVAL, k)
  end.
Proof.
  unfold lockdown_write, memdup_user_nul.
  rewrite Nat.leb_refl, firstn_all. cbv zeta. unfold bind, ret.
  rewrite lockdown_write_loop_levels, chomp_cstr_any.
  now destruct (name_level (strip_newline (cstr payload))).
Qed.

(** X8.  A write looks only at the bytes before the first NUL of the
    payload: it leaves the same state as the write of that prefix alone
    and fails with the same error; when the prefix is accepted, the full
    byte count of the payload is returned, bytes after the NUL included. *)
Theorem lockdown_write_stops_at_nul :
  forall (payload : cbuf) (k : kernel),
    snd (lockdown_write payload (List.length payload) k)
    = snd (lockdown_write (cstr payload) (List.length (cstr payload)) k) /\
    fst (lockdown_write payload (List.length payload) k)
    = (if fst (lockdown_write (cstr payload) (List.length (cstr payload)) k) <? 0
       then fst (lockdown_write (cstr payload) (List.length (cstr payload)) k)
       else Z.of_nat (List.length payload)).
Proof.
  intros payload k. rewrite !lockdown_write_any, cstr_idem.
  destruct (name_level (strip_newline (cstr payload))) as [L|]; [|split; reflexivity].
  destruct (lock_kernel_down_cases "securityfs" L k) as [[H ->]|[H ->]];
    cbn [fst snd Z.eqb]; [|split; reflexivity].
  split; [reflexivity|].
  destruct (Z.ltb_spec (Z.of_nat (List.length (cstr payload))) 0); [lia | reflexivity].
Qed.

Example lockdown_write_nul_then_junk :
  lockdown_write (lit "integrity" ++ NUL :: lit "junk") 14 (boot "sh")
  = (14, mkKernel LOCKDOWN_INTEGRITY_MAX "sh" [NoticeLockedDown "securityfs"]).
Proof. reflexivity. Qed.

(* ------------------------------------------------------------------ *)
(** ** The securityfs read at any level *)

Lemma lockdown_read_off_levels (k : kernel) :
  ~ In (kernel_locked_down k) lockdown_levels ->
  fst (lockdown_read k) = lit "none integrity confidentiality" ++ [LF].
Proof.
  intros H.
  assert ((kernel_locked_down k =? LOCKDOWN_NONE)%N = false) as E0
    by (apply N.eqb_neq; intros E; apply H; rewrite E; cbn; auto).
  assert ((kernel_locked_down k =? LOCKDOWN_INTEGRITY_MAX)%N = false) as E1
    by (apply N.eqb_neq; intros E; apply H; rewrite E; cbn; auto).
  assert ((kernel_locked_down k =? LOCKDOWN_CONFIDENTIALITY_MAX)%N = false) as E2
    by (apply N.eqb_neq; intros E; apply H; rewrite E; cbn; auto).
  unfold lockdown_read, bind, get_locked_down, ret, lockdown_levels.
  cbn [fst fold_left]. unfold lockdown_read_step.
  change (lockdown_reasons LOCKDOWN_NONE) with (Some "none"%string).
  change (lockdown_reasons LOCKDOWN_INTEGRITY_MAX) with (Some "integrity"%string).
  change (lockdown_reasons LOCKDOWN_CONFIDENTIALITY_MAX)
    with (Some "confidentiality"%string).
  cbv beta iota. rewrite E0, E1, E2. reflexivity.
Qed.

Lemma existsb_levels_false (c : N) :
  ~ In c lockdown_levels -> existsb (N.eqb c) lockdown_levels = false.
Proof.
  intros H. destruct (existsb (N.eqb c) lockdown_levels) eqn:E; [|reflexivity].
  exfalso. apply existsb_exists in E as [L [HL E]].
  apply N.eqb_eq in E. now subst.
Qed.

(** X9.  For every value of the level, also one that is no member of
    [lockdown_levels], the text built by a read is not empty, ends in a
    newline, holds no NUL byte, and together with its terminator fits the
    80 bytes of [temp]. *)
Theorem lockdown_read_fits_temp :
  forall k : kernel,
    (0 < List.length (fst (lockdown_read k)))%nat /\
    (List.length (fst (lockdown_read k)) + 1 <= lockdown_read_temp_size)%nat /\
    last (fst (lockdown_read k)) NUL = LF /\
    is_text (fst (lockdown_read k)) = true.
Proof.
  intros k.
  destruct (in_dec N.eq_dec (kernel_locked_down k) lockdown_levels) as [H|H].
  - rewrite lockdown_read_level.
    destruct H as [<-|[<-|[<-|[]]]]; unfold lockdown_read_temp_size;
      repeat split; cbn; lia.
  - rewrite (lockdown_read_off_levels k H). unfold lockdown_read_temp_size.
    repeat split; cbn; lia.
Qed.

(** X10.  For every value of the level, the line served by a read has a
    bracketed token exactly when the level is a member of
    [lockdown_levels], and then it has one, the label of the level; a
    level set by a raise to any other reason shows no bracket at all. *)
Theorem lockdown_read_bracket :
  forall k : kernel,
    filter bracketed (tokens (removelast (fst (lockdown_read k))))
    = if existsb (N.eqb (kernel_locked_down k)) lockdown_levels
      then [lit "[" ++ level_name (kernel_locked_down k) ++ lit "]"]
      else [].
Proof.
  intros k.
  destruct (in_dec N.eq_dec (kernel_locked_down k) lockdown_levels) as [H|H].
  - rewrite lockdown_read_level.
    destruct H as [<-|[<-|[<-|[]]]]; reflexivity.
  - rewrite (lockdown_read_off_levels k H), (existsb_levels_false _ H).
    reflexivity.
Qed.

(** X11.  Write then read.  When a text payload names, after the removal
    of one trailing newline, a level above the current one, the line read
    after the write has exactly one bracketed token, and it is that name
    in brackets. *)
Theorem lockdown_write_then_read :
  forall (payload : cbuf) (L : N) (k : kernel),
    is_text payload = true ->
    In L lockdown_levels ->
    level_name L = strip_newline payload ->
    (kernel_locked_down k < L)%N ->
    filter bracketed
      (tokens (removelast
         (fst (lockdown_read (snd (lockdown_write payload (List.length payload) k))))))
    = [lit "[" ++ strip_newline payload ++ lit "]"].
Proof.
  intros payload L k Ht HL E Hlt.
  rewrite (lockdown_write_text payload Ht k).
  assert (name_level (strip_newline payload) = Some L) as ->
    by (apply name_level_Some; auto).
  rewrite lock_kernel_down_raise by exact Hlt. cbn [snd].
  rewrite lockdown_read_level. cbn [kernel_locked_down].
  rewrite <- E. destruct HL as [<-|[<-|[<-|[]]]]; reflexivity.
Qed.

Lemma lockdown_write_then_read_witness :
  is_text (lit "confidentiality" ++ [LF]) = true /\
  In LOCKDOWN_CONFIDENTIALITY_MAX lockdown_levels /\
  level_name LOCKDOWN_CONFIDENTIALITY_MAX
  = strip_newline (lit "confidentiality" ++ [LF]) /\
  (kernel_locked_down written_integrity < LOCKDOWN_CONFIDENTIALITY_MAX)%N /\
  filter bracketed
    (tokens (removelast
       (fst (lockdown_read
          (snd (lockdown_write (lit "confidentiality" ++ [LF])
                  (List.length (lit "confidentiality" ++ [LF])) written_integrity))))))
  = [lit "[" ++ strip_newline (lit "confidentiality" ++ [LF]) ++ lit "]"].
Proof.
  assert (is_text (lit "confidentiality" ++ [LF]) = true) as Ht by reflexivity.
  assert (In LOCKDOWN_CONFIDENTIALITY_MAX lockdown_levels) as HL
    by (right; right; left; reflexivity).
  assert (level_name LOCKDOWN_CONFIDENTIALITY_MAX
          = strip_newline (lit "confidentiality" ++ [LF])) as E by reflexivity.
  assert (kernel_locked_down written_integrity < LOCKDOWN_CONFIDENTIALITY_MAX)%N
    as Hlt by reflexivity.
  split; [exact Ht|]. split; [exact HL|]. split; [exact E|]. split; [exact Hlt|].
  exact (lockdown_write_then_read _ _ _ Ht HL E Hlt).
Defined.

(* ------------------------------------------------------------------ *)
(** ** The SysRq lift, once more *)

Lemma sysrq_handle_lockdown_lift_cases (key : Z) (k : kernel) :
  sysrq_handle_lockdown_lift key k =
  if (kernel_locked_down k =? LOCKDOWN_NONE)%N then (tt, k)
  else (tt, mkKernel LOCKDOWN_NONE (current_comm k) (klog k ++ [NoticeLifting])).
Proof.
  unfold sysrq_handle_lockdown_lift, bind, get_locked_down.
  now destruct (kernel_locked_down k =? LOCKDOWN_NONE)%N.
Qed.

(** X12.  The SysRq handler logs "Lifting lockdown" only when there is a
    lockdown to lift; firing it a second time changes nothing, log
    included; and after it the ratchet starts afresh: a raise to any
    level other than LOCKDOWN_NONE returns 0. *)
Theorem sysrq_lift_restarts :
  forall (key key' : Z) (k : kernel),
    klog (snd (sysrq_handle_lockdown_lift key k))
    = klog k ++ (if (kernel_locked_down k =? LOCKDOWN_NONE)%N
                 then [] else [NoticeLifting]) /\
    snd (sysrq_handle_lockdown_lift key' (snd (sysrq_handle_lockdown_lift key k)))
    = snd (sysrq_handle_lockdown_lift key k) /\
    (forall where_ L,
       fst (lock_kernel_down where_ L (snd (sysrq_handle_lockdown_lift key k)))
       = if (L =? LOCKDOWN_NONE)%N then - EPERM else 0).
Proof.
  intros key key' k.
  pose proof (sysrq_handle_lockdown_lift_level key k) as Hl.
  split; [|split].
  - rewrite sysrq_handle_lockdown_lift_cases.
    destruct (kernel_locked_down k =? LOCKDOWN_NONE)%N; cbn [snd klog];
      [now rewrite app_nil_r | reflexivity].
  - rewrite (sysrq_handle_lockdown_lift_cases key'), Hl. reflexivity.
  - intros where_ L. destruct (N.eqb_spec L LOCKDOWN_NONE) as [->|HL].
    + now rewrite lock_kernel_down_refuse by apply N.le_0_l.
    + rewrite lock_kernel_down_raise; [reflexivity|].
      rewrite Hl. unfold LOCKDOWN_NONE in *. lia.
Qed.

(* ------------------------------------------------------------------ *)
(** ** Boot: the LSM initialisation, the command line, the SysRq key *)

Lemma lockdown_param_level_max (level : option cbuf) (k : kernel) :
  kernel_locked_down (snd (lockdown_param level k))
  = N.max (kernel_locked_down k) (param_level level).
Proof.
  destruct level as [tok|]; [|symmetry; apply N.max_l, N.le_0_l].
  rewrite lockdown_param_cases. unfold param_level.
  destruct (list_eq_dec ascii_dec (cstr tok) (lit "integrity")) as [_|_];
    [|destruct (list_eq_dec ascii_dec (cstr tok) (lit "confidentiality")) as [_|_]];
    cbn [snd];
    [apply lock_kernel_down_level_max | apply lock_kernel_down_level_max |].
  symmetry. apply N.max_l, N.le_0_l.
Qed.

(** X13.  The LSM initialisation always returns 0, and it and the
    command-line handler commute on the level: in either order the level
    afterwards is the maximum of the level before, the level the build
    forces and the level the argument asks for, so neither can undo the
    other. *)
Theorem boot_order_irrelevant :
  forall (cfg : config) (level : option cbuf) (k : kernel),
    fst (lockdown_lsm_init cfg k) = 0 /\
    kernel_locked_down (snd (lockdown_param level (snd (lockdown_lsm_init cfg k))))
    = N.max (kernel_locked_down k) (N.max (forced_level cfg) (param_level level)) /\
    kernel_locked_down (snd (lockdown_lsm_init cfg (snd (lockdown_param level k))))
    = N.max (kernel_locked_down k) (N.max (forced_level cfg) (param_level level)).
Proof.
  intros cfg level k. split; [|split].
  - unfold lockdown_lsm_init, bind, ret.
    destruct (CONFIG_LOCK_DOWN_KERNEL_FORCE cfg); [reflexivity| |];
      now destruct (lock_kernel_down _ _ k).
  - rewrite lockdown_param_level_max, lockdown_lsm_init_level_max. lia.
  - rewrite lockdown_lsm_init_level_max, lockdown_param_level_max. lia.
Qed.

Lemma lockdown_lift_sysrq_cases (key : ascii) (k : kernel) :
  lockdown_lift_sysrq key k sysrq_init =
  if (kernel_locked_down k =? LOCKDOWN_NONE)%N then (0, sysrq_init)
  else
    (0,
     mkSysrq
       (mkSysrqKeyOp sysrq_handle_lockdown_lift (lit "unSB(" ++ key :: lit ")")
                     "Disabling Secure Boot restrictions" SYSRQ_DISABLE_USERSPACE)
       [(key,
         mkSysrqKeyOp sysrq_handle_lockdown_lift (lit "unSB(" ++ key :: lit ")")
                      "Disabling Secure Boot restrictions" SYSRQ_DISABLE_USERSPACE)]).
Proof.
  unfold lockdown_lift_sysrq.
  now destruct (kernel_locked_down k =? LOCKDOWN_NONE)%N.
Qed.

(** X14.  The late initcall registers the lift key exactly when the boot
    left a lockdown in place: starting from the boot state, after the LSM
    initialisation and the command-line handler in either order, one
    SysRq operation is registered if the build forces a level or the
    argument is one of the two tokens, and none otherwise; the registered
    help text is "unSB(" followed by the key and ")", the write to
    help_msg[5] replacing the placeholder. *)
Theorem lockdown_lift_sysrq_after_boot :
  forall (cfg : config) (level : option cbuf) (comm : string) (key : ascii)
         (k : kernel),
    k = snd (lockdown_param level (snd (lockdown_lsm_init cfg (boot comm)))) \/
    k = snd (lockdown_lsm_init cfg (snd (lockdown_param level (boot comm)))) ->
    fst (lockdown_lift_sysrq key k sysrq_init) = 0 /\
    map (fun r => (fst r, help_msg (snd r)))
        (sysrq_registered (snd (lockdown_lift_sysrq key k sysrq_init)))
    = (if (N.max (forced_level cfg) (param_level level) =? LOCKDOWN_NONE)%N
       then []
       else [(key, lit "unSB(" ++ key :: lit ")")]) /\
    help_msg (lift_sysrq_op (snd (lockdown_lift_sysrq key k sysrq_init)))
    = (if (N.max (forced_level cfg) (param_level level) =? LOCKDOWN_NONE)%N
       then lit "unSB(x)"
       else lit "unSB(" ++ key :: lit ")").
Proof.
  intros cfg level comm key k Hk.
  assert (kernel_locked_down k = N.max (forced_level cfg) (param_level level)) as E.
  { destruct Hk as [-> | ->].
    - rewrite lockdown_param_level_max, lockdown_lsm_init_level_max.
      change (kernel_locked_down (boot comm)) with 0%N. lia.
    - rewrite lockdown_lsm_init_level_max, lockdown_param_level_max.
      change (kernel_locked_down (boot comm)) with 0%N. lia. }
  rewrite lockdown_lift_sysrq_cases, E.
  destruct (N.max (forced_level cfg) (param_level level) =? LOCKDOWN_NONE)%N;
    repeat split.
Qed.

Lemma lockdown_lift_sysrq_after_boot_witness :
  (forced_confidentiality
   = snd (lockdown_param (Some (lit "integrity"))
            (snd (lockdown_lsm_init (mkConfig FORCE_CONFIDENTIALITY false)
                    (boot "swapper")))) \/
   forced_confidentiality
   = snd (lockdown_lsm_init (mkConfig FORCE_CONFIDENTIALITY false)
            (snd (lockdown_param (Some (lit "integrity")) (boot "swapper"))))) /\
  fst (lockdown_lift_sysrq "x"%char forced_confidentiality sysrq_init) = 0.
Proof.
  assert (forced_confidentiality
          = snd (lockdown_param (Some (lit "integrity"))
                   (snd (lockdown_lsm_init (mkConfig FORCE_CONFIDENTIALITY false)
                           (boot "swapper")))) \/
          forced_confidentiality
          = snd (lockdown_lsm_init (mkConfig FORCE_CONFIDENTIALITY false)
                   (snd (lockdown_param (Some (lit "integrity")) (boot "swapper")))))
    as H by (left; reflexivity).
  split; [exact H|].
  exact (proj1 (lockdown_lift_sysrq_after_boot
                  (mkConfig FORCE_CONFIDENTIALITY false) (Some (lit "integrity"))
                  "swapper" "x"%char forced_confidentiality H)).
Defined.

(* ------------------------------------------------------------------ *)
(** ** What a check leaves in the log *)

Lemma lockdown_reasons_labelled (what : N) :
  (what < LOCKDOWN_CONFIDENTIALITY_MAX)%N ->
  exists label, lockdown_reasons what = Some label.
Proof.
  unfold LOCKDOWN_CONFIDENTIALITY_MAX. intros H.
  assert (exists n : nat, (n < 21)%nat /\ what = N.of_nat n) as [n [Hn ->]]
    by (exists (N.to_nat what); split; [lia | now rewrite N2Nat.id]).
  do 21 (destruct n as [|n]; [eexists; reflexivity|]). lia.
Qed.

(** X15.  A check either returns 0, for a reason above the current level
    and below the sentinel, and then leaves the state untouched, log
    included; or returns -EPERM and appends exactly one line to the log:
    the invalid-reason warning for a reason at or beyond the sentinel,
    otherwise the notice naming current->comm and the label of the
    reason, which every reason below the sentinel has. *)
Theorem lockdown_is_locked_down_audit :
  forall (what : N) (k : kernel),
    (lockdown_is_locked_down what k = (0, k) /\
     (kernel_locked_down k < what)%N /\ (what < LOCKDOWN_CONFIDENTIALITY_MAX)%N) \/
    (lockdown_is_locked_down what k
     = (- EPERM,
        mkKernel (kernel_locked_down k) (current_comm k)
                 (klog k ++ [WarnInvalidReason])) /\
     (LOCKDOWN_CONFIDENTIALITY_MAX <= what)%N) \/
    (exists label,
       lockdown_reasons what = Some label /\
       lockdown_is_locked_down what k
       = (- EPERM,
          mkKernel (kernel_locked_down k) (current_comm k)
                   (klog k ++ [NoticeRestricted (current_comm k) label])) /\
       (what <= kernel_locked_down k)%N /\ (what < LOCKDOWN_CONFIDENTIALITY_MAX)%N).
Proof.
  intros what k.
  destruct (N.lt_ge_cases what LOCKDOWN_CONFIDENTIALITY_MAX) as [Hv|Hv].
  - rewrite lockdown_is_locked_down_valid by exact Hv.
    destruct (N.leb_spec what (kernel_locked_down k)) as [H|H].
    + right; right. destruct (lockdown_reasons_labelled what Hv) as [label E].
      exists label. unfold restricted_log. rewrite E. repeat split; assumption.
    + left. repeat split; assumption.
  - right; left. split; [now apply lockdown_is_locked_down_sentinel | exact Hv].
Qed.
